(** * find-screenshots: the classifier [is_screenshot] and the driver [main]

    A shallow embedding of [main.py].  Python [str] values are byte strings
    (UTF-8), [int] is [Z], [float] is IEEE-754 binary64 as specified by
    [SpecFloat], a [dict] is a [gmap], and the code that reads or changes the
    file system runs in a state-and-exception monad over a [World]. *)

From Stdlib Require Import ZArith QArith String Ascii List Bool Lia.
From Stdlib Require Import Floats.SpecFloat.
From stdpp Require Import gmap strings list.

Local Open Scope string_scope.
Local Open Scope list_scope.
Local Open Scope Z_scope.

(** ** Python strings *)

Module Str.

(** [c.lower()] on one byte.  Python's [str.lower] maps code points; on the
    ASCII range it is this map, it leaves CJK code points alone, and the only
    code points outside ASCII that it sends to ASCII letters produce [k] or
    [i] followed by a combining mark, neither of which can complete a
    keyword or an extension of this program. *)
Definition lower_ascii (c : ascii) : ascii :=
  let n := nat_of_ascii c in
  if ((65 <=? n) && (n <=? 90))%nat then ascii_of_nat (n + 32) else c.

(** [s.lower()] *)
Fixpoint lower (s : string) : string :=
  match s with
  | EmptyString => EmptyString
  | String c s' => String (lower_ascii c) (lower s')
  end.

(** [s.startswith(p)] *)
Fixpoint startswith (p s : string) : bool :=
  match p, s with
  | EmptyString, _ => true
  | String a p', String b s' => Ascii.eqb a b && startswith p' s'
  | String _ _, EmptyString => false
  end.

(** [sub in s] *)
Fixpoint contains (sub s : string) : bool :=
  startswith sub s ||
  match s with
  | EmptyString => false
  | String _ s' => contains sub s'
  end.

(** [s.rfind(".")], as an offset from the start; [None] stands for -1. *)
Fixpoint rfind_dot (s : string) : option nat :=
  match s with
  | EmptyString => None
  | String c s' =>
      match rfind_dot s' with
      | Some i => Some (S i)
      | None => if Ascii.eqb c "."%char then Some 0%nat else None
      end
  end.

(** [s[i:]] *)
Fixpoint drop (i : nat) (s : string) : string :=
  match i, s with
  | O, _ => s
  | S i', String _ s' => drop i' s'
  | S _, EmptyString => EmptyString
  end.

(** [s.split("/")] *)
Fixpoint split_slash (s : string) : list string :=
  match s with
  | EmptyString => [EmptyString]
  | String c s' =>
      if Ascii.eqb c "/"%char then EmptyString :: split_slash s'
      else match split_slash s' with
           | w :: ws => String c w :: ws
           | [] => [String c EmptyString]
           end
  end.

End Str.

(** ** pathlib (POSIX flavour) *)

(** A pure path as pathlib keeps it: the anchor (the empty string, "/" or
    "//") and the components after it. *)
Record Path := mkPath { anchor : string; parts : list string }.

Global Instance Path_eq_dec : EqDecision Path.
Proof. solve_decision. Defined.

Global Instance Path_countable : Countable Path.
Proof.
  refine (inj_countable' (fun p => (anchor p, parts p))
                         (fun ap => mkPath (fst ap) (snd ap)) _).
  intros [a ps]; reflexivity.
Defined.

Module Pathlib.

(** The root of a path string: two leading slashes are kept, any other
    number of them collapses to one. *)
Definition parse_anchor (s : string) : string :=
  if Str.startswith "///" s then "/"
  else if Str.startswith "//" s then "//"
  else if Str.startswith "/" s then "/"
  else "".

Definition is_component (c : string) : bool :=
  negb (String.eqb c "" || String.eqb c ".").

(** [Path(s)]: empty components and "." components are dropped. *)
Definition of_str (s : string) : Path :=
  mkPath (parse_anchor s) (List.filter is_component (Str.split_slash s)).

(** [p.name] *)
Definition name (p : Path) : string := List.last (parts p) "".

(** [p.suffix], as in CPython 3.10 to 3.13: the part of the name from its
    last dot, when that dot is neither the first nor the last character of
    the name. *)
Definition suffix (p : Path) : string :=
  let n := name p in
  match Str.rfind_dot n with
  | Some i => if ((0 <? i) && (i <? String.length n - 1))%nat
              then Str.drop i n else ""
  | None => ""
  end.

(** [p.parent] *)
Definition parent (p : Path) : Path :=
  mkPath (anchor p) (List.removelast (parts p)).

(** [p / s] *)
Definition joinpath (p : Path) (s : string) : Path :=
  let q := of_str s in
  if String.eqb (anchor q) "" then mkPath (anchor p) (parts p ++ parts q)
  else q.

Fixpoint strip_prefix (pre l : list string) : option (list string) :=
  match pre, l with
  | [], _ => Some l
  | a :: pre', b :: l' => if String.eqb a b then strip_prefix pre' l' else None
  | _ :: _, [] => None
  end.

(** [p.relative_to(base)]; [None] stands for the ValueError. *)
Definition relative_to (p base : Path) : option Path :=
  if String.eqb (anchor p) (anchor base) then
    match strip_prefix (parts base) (parts p) with
    | Some rest => Some (mkPath "" rest)
    | None => None
    end
  else None.

(** [str(p)] *)
Definition to_str (p : Path) : string :=
  match parts p with
  | [] => if String.eqb (anchor p) "" then "." else anchor p
  | c :: cs =>
      String.append (anchor p)
        (fold_left (fun acc x => String.append acc (String.append "/" x)) cs c)
  end.

End Pathlib.

(** ** Floats

    Python's [float] is IEEE-754 binary64.  For operands below 2^53, where
    image dimensions live, CPython computes [a / b] on two ints by converting
    both exactly to doubles and dividing them once. *)

Module Float.

Definition float := spec_float.

Definition prec : Z := 53.
Definition emax : Z := 1024.

(** [float(n)] *)
Definition of_int (n : Z) : float := binary_normalize prec emax n 0 false.

Definition div (x y : float) : float := SFdiv prec emax x y.

(** [x <= y] *)
Definition leb (x y : float) : bool := SFleb x y.

(** The doubles denoted by the literals of [SCREENSHOT_RATIO_RANGES]. *)
Definition lit_1_30 : float := S754_finite false 5854679515581645 (-52).
Definition lit_1_36 : float := S754_finite false 6124895493223875 (-52).
Definition lit_1_75 : float := S754_finite false 7881299347898368 (-52).
Definition lit_1_80 : float := S754_finite false 8106479329266893 (-52).
Definition lit_1_95 : float := S754_finite false 8782019273372467 (-52).
Definition lit_2_40 : float := S754_finite false 5404319552844595 (-51).

(** [m * 2^e] is a double nearest to [n / 100]: it is within half a unit
    in the last place, [2^(e-1)], of it. *)
Definition nearest_to_hundredths (n : Z) (x : float) : bool :=
  match x with
  | S754_finite false m e =>
      valid_binary prec emax x &&
      (((2 * Z.pos m - 1) * 100 <=? n * 2 ^ (1 - e)) &&
       (n * 2 ^ (1 - e) <=? (2 * Z.pos m + 1) * 100))
  | _ => false
  end.

(** The last stage of [binary_round_aux]: a mantissa that rounding pushed
    to [2^53] is brought back to 53 bits. *)
Definition renormalize (m e : Z) : float :=
  let '(mrs, e') := shr_fexp 53 1024 m e loc_Exact in
  match shr_m mrs with
  | Z0 => S754_zero false
  | Zpos m' => if e' <=? 1024 - 53 then S754_finite false m' e' else S754_infinity false
  | Zneg _ => S754_nan
  end.

End Float.

(** ** Exceptions *)

(** The kinds of [OSError] that the file system calls raise. *)
Inductive os_error :=
  | FileNotFoundError
  | FileExistsError
  | IsADirectoryError
  | NotADirectoryError
  | PermissionError
  | OtherOSError (errno : Z).

(** The errors that the calls of this program raise; all of them derive from
    Python's [Exception].  [UnidentifiedImageError] is Pillow's subclass of
    [OSError] and is kept apart because the code names it.  Signals that the
    interpreter delivers from outside the running code (KeyboardInterrupt,
    SystemExit) are not part of the model. *)
Inductive exn :=
  | UnidentifiedImageError
  | OSError (kind : os_error)
  | AttributeError
  | ZeroDivisionError
  | Exit (code : Z)
  | OtherError (class_name : string).

Global Instance os_error_eq_dec : EqDecision os_error.
Proof. solve_decision. Defined.

Global Instance exn_eq_dec : EqDecision exn.
Proof. solve_decision. Defined.

(** [isinstance(e, (UnidentifiedImageError, OSError))] *)
Definition is_image_or_os_error (e : exn) : bool :=
  match e with
  | UnidentifiedImageError | OSError _ => true
  | _ => false
  end.

Inductive result (A : Type) :=
  | Ok (a : A)
  | Raise (e : exn).
Arguments Ok {A} a.
Arguments Raise {A} e.

(** ** Images and the file system *)

Inductive exif_value :=
  | ExifInt (n : Z)
  | ExifRational (num den : Z)
  | ExifText (s : string).

(** What Pillow exposes of an opened image: the outcome of [img._getexif()]
    ([None], a dict keyed by tag number, or an error, as for the image
    classes that have no such method) and [img.size]. *)
Record Image := mkImage {
  img_getexif : result (option (gmap Z exif_value));
  img_size : Z * Z
}.

(** A directory, or a regular file together with what [Image.open] makes of
    its bytes. *)
Inductive node :=
  | Dir
  | File (decoded : result Image).

Inductive action := Copy | Move.

(** The operations on the outside world and the partial arithmetic that the
    program attempts, in the order it attempts them. *)
Inductive event :=
  | EvOpen (p : Path)
  | EvDivide (a b : Z)
  | EvRglob (root : Path)
  | EvMkdir (p : Path)
  | EvTransfer (a : action) (src dst : Path).

Inductive method := ByName | ByFeature.

(** The lines printed on the console. *)
Inductive msg :=
  | MsgRootMissing (folder : string)
  | MsgScanning (root : Path)
  | MsgNoneFound
  | MsgTable (rows : list (string * string * method))
  | MsgAction (a : option action) (dest : Path)
  | MsgSkipExists (name : string)
  | MsgFailed (name : string) (e : exn)
  | MsgDone.

Record World := mkWorld {
  fs : gmap Path node;
  (** the error, if any, with which the operating system refuses to copy or
      move a given source file *)
  transfer_fault : gmap Path exn;
  console : list msg;
  trace : list event
}.

Definition log (ev : event) (w : World) : World :=
  mkWorld (fs w) (transfer_fault w) (console w) (trace w ++ [ev]).

Definition say (m : msg) (w : World) : World :=
  mkWorld (fs w) (transfer_fault w) (console w ++ [m]) (trace w).

Definition with_fs (f : gmap Path node) (w : World) : World :=
  mkWorld f (transfer_fault w) (console w) (trace w).

(** The anchor itself (the current directory or the root) always exists. *)
Definition lookup_node (w : World) (p : Path) : option node :=
  match parts p with
  | [] => Some Dir
  | _ :: _ => fs w !! p
  end.

(** ** The monad of the program: state and exceptions *)

Definition M (A : Type) : Type := World -> result A * World.

Global Instance M_ret : MRet M := fun A a w => (Ok a, w).

Global Instance M_bind : MBind M := fun A B f c w =>
  match c w with
  | (Ok a, w') => f a w'
  | (Raise e, w') => (Raise e, w')
  end.

Definition raise {A} (e : exn) : M A := fun w => (Raise e, w).

(** [try: body / except ...: handler e]; a handler that answers [None] does
    not match and the exception goes on. *)
Definition try_except {A} (body : M A) (handler : exn -> option (M A)) : M A :=
  fun w =>
    match body w with
    | (Ok a, w') => (Ok a, w')
    | (Raise e, w') =>
        match handler e with
        | Some h => h w'
        | None => (Raise e, w')
        end
    end.

Definition emit (ev : event) : M unit := fun w => (Ok tt, log ev w).

Definition console_print (m : msg) : M unit := fun w => (Ok tt, say m w).

Definition get_world : M World := fun w => (Ok w, w).

Definition lift_result {A} (r : result A) : M A :=
  match r with
  | Ok a => mret a
  | Raise e => raise e
  end.

(** ** The classifier *)

Definition IMAGE_EXTENSIONS : gset string :=
  {[ ".png"; ".jpg"; ".jpeg"; ".heic"; ".webp" ]}.

Definition SCREENSHOT_KEYWORDS : list string :=
  [ "screenshot"; "截屏"; "屏幕截图"; "screen_shot"; "captures" ].

Definition SCREENSHOT_RATIO_RANGES : list (Float.float * Float.float) :=
  [ (Float.lit_1_30, Float.lit_1_36);
    (Float.lit_1_75, Float.lit_1_80);
    (Float.lit_1_95, Float.lit_2_40) ].

(** 33434 ExposureTime, 33437 FNumber, 34855 ISOSpeedRatings *)
Definition photo_tags : gset Z := {[ 33434; 33437; 34855 ]}.

(** [Image.open(p)] *)
Definition Image_open (p : Path) : M Image :=
  emit (EvOpen p);;
  w ← get_world;
  match lookup_node w p with
  | None => raise (OSError FileNotFoundError)
  | Some Dir => raise (OSError IsADirectoryError)
  | Some (File decoded) => lift_result decoded
  end.

(** [a / b] on two ints *)
Definition true_divide (a b : Z) : M Float.float :=
  emit (EvDivide a b);;
  if b =? 0 then raise ZeroDivisionError
  else mret (Float.div (Float.of_int a) (Float.of_int b)).

(** [if exif:] holds for a dict that is not empty. *)
Definition truthy (exif : option (gmap Z exif_value)) : bool :=
  match exif with
  | Some d => negb (bool_decide (d = ∅))
  | None => false
  end.

(** [tag in exif] for some [tag] of [photo_tags] *)
Definition has_photo_tag (exif : option (gmap Z exif_value)) : bool :=
  match exif with
  | Some d => existsb (fun tag => bool_decide (is_Some (d !! tag))) (elements photo_tags)
  | None => false
  end.

(** [min_r <= ratio <= max_r] for some range of the table *)
Definition in_ranges (ratio : Float.float) : bool :=
  existsb (fun r => Float.leb (fst r) ratio && Float.leb ratio (snd r))
          SCREENSHOT_RATIO_RANGES.

(** The body of the [try]: [Some b] when it executes [return b], [None] when
    control falls out of it.  Leaving the [with] block closes the image,
    which is taken not to fail. *)
Definition inspect (file_path : Path) : M (option bool) :=
  img ← Image_open file_path;
  exif ← lift_result (img_getexif img);
  if truthy exif && has_photo_tag exif then mret (Some false) else
  let '(w, h) := img_size img in
  if (w =? 0) || (h =? 0) then mret (Some false) else
  let long_side := Z.max w h in
  let short_side := Z.min w h in
  ratio ← true_divide long_side short_side;
  if in_ranges ratio then mret (Some true) else mret None.

Definition is_screenshot (file_path : Path) : M bool :=
  if negb (bool_decide (Str.lower (Pathlib.suffix file_path) ∈ IMAGE_EXTENSIONS))
  then mret false else
  let filename := Str.lower (Pathlib.name file_path) in
  if existsb (fun keyword => Str.contains keyword filename) SCREENSHOT_KEYWORDS
  then mret true else
  r ← try_except (inspect file_path)
        (fun e => if is_image_or_os_error e
                  then Some (mret (Some false))
                  else Some (mret (Some false)));
  match r with
  | Some verdict => mret verdict
  | None => mret false
  end.

(** [any(k in p.name.lower() for k in SCREENSHOT_KEYWORDS)] *)
Definition name_match (p : Path) : bool :=
  existsb (fun keyword => Str.contains keyword (Str.lower (Pathlib.name p)))
          SCREENSHOT_KEYWORDS.

Definition image_extension (p : Path) : Prop :=
  Str.lower (Pathlib.suffix p) ∈ IMAGE_EXTENSIONS.

(** ** The driver *)

Definition set_fs (f : gmap Path node) : M unit := fun w => (Ok tt, with_fs f w).

(** [p.exists()] *)
Definition Path_exists (p : Path) : M bool :=
  w ← get_world; mret (bool_decide (is_Some (lookup_node w p))).

Definition is_file (w : World) (p : Path) : bool :=
  match lookup_node w p with
  | Some (File _) => true
  | _ => false
  end.

Definition is_dir (w : World) (p : Path) : bool :=
  match lookup_node w p with
  | Some Dir => true
  | _ => false
  end.

(** [p] lies strictly below [root]. *)
Definition below (root p : Path) : bool :=
  String.eqb (anchor root) (anchor p) &&
  match Pathlib.strip_prefix (parts root) (parts p) with
  | Some (_ :: _) => true
  | _ => false
  end.

(** [list(root.rglob("*"))]: every entry below [root], in the order in which
    the file system lists them. *)
Definition rglob (root : Path) : M (list Path) :=
  emit (EvRglob root);;
  w ← get_world;
  mret (List.filter (below root) (map fst (map_to_list (fs w)))).

(** [os.mkdir(p)] *)
Definition os_mkdir (p : Path) : M unit :=
  w ← get_world;
  match lookup_node w (Pathlib.parent p) with
  | None => raise (OSError FileNotFoundError)
  | Some (File _) => raise (OSError NotADirectoryError)
  | Some Dir =>
      match lookup_node w p with
      | Some _ => raise (OSError FileExistsError)
      | None => set_fs (<[p := Dir]> (fs w))
      end
  end.

(** The last clause of [Path.mkdir]: with [exist_ok] an [OSError] is
    swallowed when the path is a directory. *)
Definition unless_is_dir (self : Path) (e : exn) : M unit :=
  w ← get_world; if is_dir w self then mret tt else raise e.

(** [self.mkdir(parents=False, exist_ok=True)] *)
Definition mkdir_exist_ok (self : Path) : M unit :=
  try_except (os_mkdir self)
    (fun e => match e with
              | OSError FileNotFoundError => None
              | OSError _ => Some (unless_is_dir self e)
              | _ => None
              end).

(** [self.mkdir(parents=True, exist_ok=True)], with the components of [self]
    given last first: when the parent is missing it is made in the same way
    and the directory is made again. *)
Fixpoint mkdir_parents (a : string) (rev_parts : list string) : M unit :=
  let self := mkPath a (rev rev_parts) in
  try_except (os_mkdir self)
    (fun e => match e with
              | OSError FileNotFoundError =>
                  match rev_parts with
                  | [] => None
                  | _ :: up => Some (mkdir_parents a up;; mkdir_exist_ok self)
                  end
              | OSError _ => Some (unless_is_dir self e)
              | _ => None
              end).

Definition Path_mkdir (p : Path) : M unit :=
  emit (EvMkdir p);;
  mkdir_parents (anchor p) (rev (parts p)).

(** [shutil.copy2(src, dst)], for a [dst] that does not exist: the file and
    its metadata appear at [dst].  A refused transfer changes nothing. *)
Definition shutil_copy2 (src dst : Path) : M unit :=
  emit (EvTransfer Copy src dst);;
  w ← get_world;
  match transfer_fault w !! src with
  | Some e => raise e
  | None =>
      match lookup_node w src with
      | Some (File c) => set_fs (<[dst := File c]> (fs w))
      | Some Dir => raise (OSError IsADirectoryError)
      | None => raise (OSError FileNotFoundError)
      end
  end.

(** [shutil.move(src, dst)], for a [dst] that does not exist: the entry
    leaves [src] and appears at [dst]. *)
Definition shutil_move (src dst : Path) : M unit :=
  emit (EvTransfer Move src dst);;
  w ← get_world;
  match transfer_fault w !! src with
  | Some e => raise e
  | None =>
      match lookup_node w src with
      | Some n => set_fs (<[dst := n]> (delete src (fs w)))
      | None => raise (OSError FileNotFoundError)
      end
  end.

(** The loop that fills [found_files]. *)
Fixpoint collect (image_files found_files : list Path) : M (list Path) :=
  match image_files with
  | [] => mret found_files
  | file_path :: rest =>
      hit ← is_screenshot file_path;
      collect rest (if hit : bool then found_files ++ [file_path] else found_files)
  end.

(** One row of the table: name, parent of the relative path, method. *)
Definition table_row (root_dir f : Path) : string * string * method :=
  let rel_path := match Pathlib.relative_to f root_dir with
                  | Some r => r
                  | None => f
                  end in
  let is_name_match := name_match f in
  (Pathlib.name f, Pathlib.to_str (Pathlib.parent rel_path),
   if is_name_match then ByName else ByFeature).

(** [if s:] for an optional string: it is given and not empty. *)
Definition given (s : option string) : bool :=
  match s with
  | Some v => negb (String.eqb v "")
  | None => false
  end.

(** [dest_dir] and [action_type] *)
Definition destination (copy_to move_to : option string)
  : option Path * option action :=
  if given copy_to then (Some (Pathlib.of_str (default "" copy_to)), Some Copy)
  else if given move_to then (Some (Pathlib.of_str (default "" move_to)), Some Move)
  else (None, None).

(** One turn of the transfer loop. *)
Definition transfer (dest_dir : Path) (action_type : option action) (f : Path)
  : M unit :=
  try_except
    (let target := Pathlib.joinpath dest_dir (Pathlib.name f) in
     present ← Path_exists target;
     if present : bool then console_print (MsgSkipExists (Pathlib.name f))
     else match action_type with
          | Some Copy => shutil_copy2 f target
          | _ => shutil_move f target
          end)
    (fun e => Some (console_print (MsgFailed (Pathlib.name f) e))).

Fixpoint for_each {A} (body : A -> M unit) (l : list A) : M unit :=
  match l with
  | [] => mret tt
  | x :: rest => body x;; for_each body rest
  end.

(** The scanning half of [main]: list the tree, keep the regular files with
    an image extension, classify each. *)
Definition scan (root_dir : Path) : M (list Path) :=
  console_print (MsgScanning root_dir);;
  all_files ← rglob root_dir;
  w ← get_world;
  let image_files :=
    List.filter (fun f => is_file w f &&
                   bool_decide (Str.lower (Pathlib.suffix f) ∈ IMAGE_EXTENSIONS))
                all_files in
  collect image_files [].

(** The copy or move half of [main]. *)
Definition act (copy_to move_to : option string) (found_files : list Path) : M unit :=
  let '(dest_dir, action_type) := destination copy_to move_to in
  match dest_dir with
  | Some dest =>
      Path_mkdir dest;;
      console_print (MsgAction action_type dest);;
      for_each (transfer dest action_type) found_files;;
      console_print MsgDone
  | None => mret tt
  end.

Definition main (folder : string) (copy_to move_to : option string) : M unit :=
  let root_dir := Pathlib.of_str folder in
  present ← Path_exists root_dir;
  if negb present then
    console_print (MsgRootMissing folder);;
    raise (Exit 1)
  else
  found_files ← scan root_dir;
  match found_files with
  | [] => console_print MsgNoneFound
  | _ :: _ =>
      console_print (MsgTable (map (table_row root_dir) found_files));;
      act copy_to move_to found_files
  end.

(** Running the command: the exit status of the process.  An exception that
    leaves [main] ends the process with status 1, [typer.Exit] with its own
    code. *)
Definition app (folder : string) (copy_to move_to : option string) (w : World)
  : Z * World :=
  match main folder copy_to move_to w with
  | (Ok _, w') => (0, w')
  | (Raise (Exit code), w') => (code, w')
  | (Raise _, w') => (1, w')
  end.

(** ** Vocabulary of the statements *)

(** [w] with further operations on its trace and nothing else changed. *)
Definition add_events (new : list event) (w : World) : World :=
  mkWorld (fs w) (transfer_fault w) (console w) (trace w ++ new).

Definition is_transfer (ev : event) : bool :=
  match ev with
  | EvTransfer _ _ _ => true
  | _ => false
  end.

Definition is_move (ev : event) : bool :=
  match ev with
  | EvTransfer Move _ _ => true
  | _ => false
  end.



(** From [w] to [w'] no entry was removed or changed and no move was
    attempted. *)
Definition nothing_moved (w w' : World) : Prop :=
  fs w ⊆ fs w' /\
  exists new, trace w' = trace w ++ new /\ Forall (fun ev => is_move ev = false) new.


(** ** Worlds used in the examples *)

(** The verdict of the classifier on [p] in [w]. *)
Definition verdict (w : World) (p : Path) : bool :=
  match fst (is_screenshot p w) with
  | Ok hit => hit
  | Raise _ => false
  end.



Definition blank (files : list (Path * node)) : World :=
  mkWorld (list_to_map files) ∅ [] [].

Definition plain_image (w h : Z) : node := File (Ok (mkImage (Ok None) (w, h))).

Definition tests_dir : World :=
  blank [ (Pathlib.of_str "tests", Dir);
          (Pathlib.of_str "tests/Screenshot_20260130.png", plain_image 1024 1024);
          (Pathlib.of_str "tests/img_random_name_001.png", plain_image 472 1024);
          (Pathlib.of_str "tests/img_random_name_002.png", plain_image 1024 1024);
          (Pathlib.of_str "tests/not_an_image.txt", File (Raise UnidentifiedImageError)) ].

(** A camera photo in portrait 9:16 and a screenshot of the same shape. *)
Definition camera_photo : Image :=
  mkImage (Ok (Some {[ 271 := ExifText "Canon"; 33437 := ExifRational 28 10 ]}))
          (1080, 1920).

Definition phone_capture : Image := mkImage (Ok None) (1080, 1920).

(** An image of a class without [_getexif]. *)
Definition bitmap : Image := mkImage (Raise AttributeError) (1080, 1920).

Definition empty_image : Image := mkImage (Ok None) (0, 600).

Definition album : World :=
  blank [ (Pathlib.of_str "album", Dir);
          (Pathlib.of_str "album/IMG_0001.JPG", File (Ok camera_photo));
          (Pathlib.of_str "album/IMG_0002.PNG", File (Ok phone_capture));
          (Pathlib.of_str "album/scan.png", File (Ok bitmap));
          (Pathlib.of_str "album/empty.webp", File (Ok empty_image));
          (Pathlib.of_str "album/broken.jpeg", File (Raise UnidentifiedImageError));
          (Pathlib.of_str "album/Screenshot_notes.txt", File (Raise UnidentifiedImageError));
          (Pathlib.of_str "album/Screen_Shot 2024.heic", File (Raise UnidentifiedImageError)) ].


(** A folder of captures, one of which the system refuses to hand over, and
    a destination that already holds a file of the same name as another. *)
Definition desk : World :=
  mkWorld
    (list_to_map
       [ (Pathlib.of_str "desk", Dir);
         (Pathlib.of_str "desk/a", Dir);
         (Pathlib.of_str "desk/b", Dir);
         (Pathlib.of_str "desk/a/screenshot_1.png", plain_image 100 100);
         (Pathlib.of_str "desk/a/screenshot_2.png", plain_image 200 200);
         (Pathlib.of_str "desk/b/screenshot_3.png", plain_image 300 300);
         (Pathlib.of_str "shots", Dir);
         (Pathlib.of_str "shots/screenshot_1.png", plain_image 7 7) ])
    {[ Pathlib.of_str "desk/b/screenshot_3.png" := OSError PermissionError ]}
    [] [].

Example of_str_nested :
  Pathlib.of_str "photos/./2024//IMG_0001.JPG" = mkPath "" ["photos"; "2024"; "IMG_0001.JPG"].
Proof. reflexivity. Qed.

Example suffix_upper : Pathlib.suffix (Pathlib.of_str "/a/b/IMG_0001.JPG") = ".JPG".
Proof. reflexivity. Qed.

Example suffix_hidden : Pathlib.suffix (Pathlib.of_str ".png") = "".
Proof. reflexivity. Qed.

Example suffix_trailing_dot : Pathlib.suffix (Pathlib.of_str "shot.") = "".
Proof. reflexivity. Qed.

Example to_str_parent :
  Pathlib.to_str (Pathlib.parent (Pathlib.of_str "/a/b/c.png")) = "/a/b".
Proof. reflexivity. Qed.

Example literals_are_nearest :
  forallb (fun nx => Float.nearest_to_hundredths (fst nx) (snd nx))
    [ (130, Float.lit_1_30); (136, Float.lit_1_36); (175, Float.lit_1_75);
      (180, Float.lit_1_80); (195, Float.lit_1_95); (240, Float.lit_2_40) ] = true.
Proof. vm_compute. reflexivity. Qed.

(** The cases of the repository's test. *)

Example test_filename_match :
  fst (is_screenshot (Pathlib.of_str "tests/Screenshot_20260130.png") tests_dir) = Ok true.
Proof. vm_compute. reflexivity. Qed.

Example test_feature_match :
  fst (is_screenshot (Pathlib.of_str "tests/img_random_name_001.png") tests_dir) = Ok true.
Proof. vm_compute. reflexivity. Qed.

Example test_square :
  fst (is_screenshot (Pathlib.of_str "tests/img_random_name_002.png") tests_dir) = Ok false.
Proof. vm_compute. reflexivity. Qed.

Example test_not_an_image :
  let out := is_screenshot (Pathlib.of_str "tests/not_an_image.txt") tests_dir in
  fst out = Ok false /\ trace (snd out) = [].
Proof. vm_compute. split; reflexivity. Qed.

(** A text file that was renamed to [.png] is opened and found undecodable. *)
Example test_renamed_text :
  let w := blank [ (Pathlib.of_str "notes.png", File (Raise UnidentifiedImageError)) ] in
  let out := is_screenshot (Pathlib.of_str "notes.png") w in
  fst out = Ok false /\ trace (snd out) = [EvOpen (Pathlib.of_str "notes.png")].
Proof. vm_compute. split; reflexivity. Qed.

(** * Properties of the classifier *)

Lemma name_match_keyword p :
  name_match p = true <->
  exists keyword, keyword ∈ SCREENSHOT_KEYWORDS /\
                  Str.contains keyword (Str.lower (Pathlib.name p)) = true.
Proof.
  unfold name_match. rewrite existsb_exists.
  split; intros (k & Hk & Hc); exists k; split; auto;
    now apply list_elem_of_In.
Qed.

Section Classifier.

Variable p : Path.
Variable w : World.

(** Past the two gates the classifier is the guarded inspection. *)
Lemma is_screenshot_inspects :
  image_extension p -> name_match p = false ->
  is_screenshot p w =
    match inspect p w with
    | (Ok (Some verdict), w') => (Ok verdict, w')
    | (Ok None, w') => (Ok false, w')
    | (Raise _, w') => (Ok false, w')
    end.
Proof.
  intros Hext Hname. unfold is_screenshot.
  rewrite bool_decide_eq_true_2 by exact Hext. cbn [negb].
  unfold name_match in Hname. rewrite Hname.
  unfold mbind, M_bind, try_except.
  destruct (inspect p w) as [[[verdict|]|e] w']; try reflexivity.
  destruct (is_image_or_os_error e); reflexivity.
Qed.

Lemma Image_open_file img :
  lookup_node w p = Some (File (Ok img)) ->
  Image_open p w = (Ok img, log (EvOpen p) w).
Proof.
  intros Hn. unfold Image_open, mbind, M_bind, emit, get_world. cbn.
  replace (lookup_node (log (EvOpen p) w) p) with (lookup_node w p) by reflexivity.
  rewrite Hn. reflexivity.
Qed.

(** [Image.open] raises unless the path is a file that decodes. *)
Lemma Image_open_fails :
  (forall img, lookup_node w p <> Some (File (Ok img))) ->
  exists e, Image_open p w = (Raise e, log (EvOpen p) w).
Proof.
  intros Hn. unfold Image_open, mbind, M_bind, emit, get_world. cbn.
  replace (lookup_node (log (EvOpen p) w) p) with (lookup_node w p) by reflexivity.
  destruct (lookup_node w p) as [[|[img|e]]|] eqn:E; try (eexists; reflexivity).
  now destruct (Hn img).
Qed.

End Classifier.

(** What an inspection that reaches the image does: it answers without
    dividing when the EXIF read fails, a photo tag is present or a side is
    zero, and otherwise divides the longer side by the shorter one. *)
Lemma inspect_opened p w img :
  lookup_node w p = Some (File (Ok img)) ->
  inspect p w =
    match img_getexif img with
    | Raise e => (Raise e, log (EvOpen p) w)
    | Ok exif =>
        if truthy exif && has_photo_tag exif
        then (Ok (Some false), log (EvOpen p) w)
        else if (fst (img_size img) =? 0) || (snd (img_size img) =? 0)
        then (Ok (Some false), log (EvOpen p) w)
        else
          let long_side := Z.max (fst (img_size img)) (snd (img_size img)) in
          let short_side := Z.min (fst (img_size img)) (snd (img_size img)) in
          (Ok (if in_ranges (Float.div (Float.of_int long_side) (Float.of_int short_side))
               then Some true else None),
           log (EvDivide long_side short_side) (log (EvOpen p) w))
    end.
Proof.
  intros Hn. unfold inspect. unfold mbind at 1. unfold M_bind.
  rewrite (Image_open_file _ _ _ Hn).
  destruct (img_getexif img) as [exif|e]; [|reflexivity].
  cbn [lift_result]. unfold mbind at 1. unfold M_bind. cbn [mret M_ret].
  destruct (truthy exif && has_photo_tag exif); [reflexivity|].
  destruct (img_size img) as [wd ht]. cbn [fst snd].
  destruct ((wd =? 0) || (ht =? 0)) eqn:Ez; [reflexivity|].
  apply orb_false_iff in Ez. destruct Ez as [Ew Eh].
  apply Z.eqb_neq in Ew, Eh.
  unfold true_divide, mbind, M_bind, emit.
  assert (Hmin : (Z.min wd ht =? 0) = false) by (apply Z.eqb_neq; lia).
  rewrite Hmin. cbn [mret M_ret].
  destruct (in_ranges _); reflexivity.
Qed.

Lemma inspect_open_fails p w :
  (forall img, lookup_node w p <> Some (File (Ok img))) ->
  exists e, inspect p w = (Raise e, log (EvOpen p) w).
Proof.
  intros Hn. destruct (Image_open_fails p w Hn) as [e He]. exists e.
  unfold inspect. unfold mbind at 1. unfold M_bind. now rewrite He.
Qed.

Lemma truthy_photo_tag d tag v :
  tag ∈ photo_tags -> d !! tag = Some v ->
  truthy (Some d) && has_photo_tag (Some d) = true.
Proof.
  intros Htag Hv. apply andb_true_iff. split.
  - cbn. apply negb_true_iff, bool_decide_eq_false. intros ->.
    now rewrite lookup_empty in Hv.
  - cbn [has_photo_tag]. apply existsb_exists. exists tag. split.
    + apply list_elem_of_In, elem_of_elements, Htag.
    + apply bool_decide_eq_true. now exists v.
Qed.

(** Every division that a classification attempts has a divisor other than
    zero. *)
Lemma divisors_nonzero p w :
  exists new, trace (snd (is_screenshot p w)) = trace w ++ new /\
              forall a b, EvDivide a b ∈ new -> b <> 0.
Proof.
  assert (Hnil : forall l : list event, l = l ++ []) by (intros; now rewrite app_nil_r).
  assert (Hopen : forall a b, EvDivide a b ∈ [EvOpen p] -> b <> 0).
  { intros a b Hin. apply list_elem_of_singleton in Hin. discriminate. }
  destruct (decide (image_extension p)) as [Hext|Hext];
    [destruct (name_match p) eqn:Hname|].
  - exists []. split; [|intros a b Hin; inversion Hin].
    unfold is_screenshot. rewrite bool_decide_eq_true_2 by exact Hext.
    unfold name_match in Hname. cbn [negb]. rewrite Hname. apply Hnil.
  - rewrite (is_screenshot_inspects _ _ Hext Hname).
    destruct (lookup_node w p) as [[|[img|e]]|] eqn:Hn.
    2: { rewrite (inspect_opened _ _ _ Hn).
      destruct (img_getexif img) as [exif|e]; [|exists [EvOpen p]; now split].
      destruct (truthy exif && has_photo_tag exif); [exists [EvOpen p]; now split|].
      destruct ((fst (img_size img) =? 0) || (snd (img_size img) =? 0)) eqn:Ez;
        [exists [EvOpen p]; now split|].
      apply orb_false_iff in Ez. destruct Ez as [Ew Eh].
      apply Z.eqb_neq in Ew, Eh.
      exists [EvOpen p; EvDivide (Z.max (fst (img_size img)) (snd (img_size img)))
                                 (Z.min (fst (img_size img)) (snd (img_size img)))].
      split.
      * cbv zeta. destruct (in_ranges _); cbn; now rewrite <- app_assoc.
      * intros a b Hin. apply elem_of_cons in Hin as [Hin|Hin]; [discriminate|].
        apply list_elem_of_singleton in Hin. injection Hin as -> ->. lia. }
    all: destruct (inspect_open_fails p w) as [e' He'];
      [intros img' Himg; congruence|];
      rewrite He'; exists [EvOpen p]; now split.
  - exists []. split; [|intros a b Hin; inversion Hin].
    unfold is_screenshot. rewrite bool_decide_eq_false_2 by exact Hext. apply Hnil.
Qed.

Lemma extension_gate_aux p w :
  ~ image_extension p -> is_screenshot p w = (Ok false, w).
Proof.
  intros Hext. unfold is_screenshot.
  rewrite bool_decide_eq_false_2 by exact Hext. reflexivity.
Qed.

(** ** The claims about the classifier *)

(** C4.  A path whose lower-cased extension is not a recognised image
    extension is classified as not a screenshot at once: the world, and with
    it the list of attempted operations, is left as it was, so the file was
    never opened. *)
Theorem extension_gate p w :
  Str.lower (Pathlib.suffix p) ∉ IMAGE_EXTENSIONS ->
  is_screenshot p w = (Ok false, w).
Proof.
  intros Hext. now apply extension_gate_aux.
Qed.

Lemma extension_gate_witness :
  is_screenshot (Pathlib.of_str "tests/not_an_image.txt") tests_dir = (Ok false, tests_dir).
Proof.
  apply (extension_gate (Pathlib.of_str "tests/not_an_image.txt") tests_dir).
  compute_done.
Defined.

(** C1, as stated: a keyword in the base name makes the verdict true.  The
    extension gate comes first, so a keyword-named file with another
    extension is rejected. *)
Lemma keyword_name_rejected :
  ~ (forall p w, name_match p = true -> fst (is_screenshot p w) = Ok true).
Proof.
  intros H.
  specialize (H (Pathlib.of_str "album/Screenshot_notes.txt") album).
  vm_compute in H. specialize (H eq_refl). discriminate H.
Qed.

(** C1, amended.  For every path with a recognised image extension whose
    lower-cased base name contains one of the keywords, the verdict is true
    and the world is left as it was: the file is never opened, whatever it
    holds. *)
Theorem keyword_fast_path p w keyword :
  image_extension p ->
  keyword ∈ SCREENSHOT_KEYWORDS ->
  Str.contains keyword (Str.lower (Pathlib.name p)) = true ->
  is_screenshot p w = (Ok true, w).
Proof.
  intros Hext Hkw Hsub.
  assert (Hname : name_match p = true) by (apply name_match_keyword; eauto).
  unfold is_screenshot. rewrite bool_decide_eq_true_2 by exact Hext.
  unfold name_match in Hname. cbn [negb]. now rewrite Hname.
Qed.

Lemma keyword_fast_path_witness :
  is_screenshot (Pathlib.of_str "album/Screen_Shot 2024.heic") album = (Ok true, album).
Proof.
  apply (keyword_fast_path (Pathlib.of_str "album/Screen_Shot 2024.heic") album "screen_shot").
  - compute_done.
  - compute_done.
  - vm_compute. reflexivity.
Defined.

(** C2.  An image that opens, under a name with an image extension and no
    keyword, whose EXIF mapping holds one of the tags 33434, 33437, 34855 is
    classified as not a screenshot, whatever its size; the only operation
    attempted is the open, so the verdict is reached before any ratio is
    computed. *)
Theorem photo_tag_excludes p w img exif tag v :
  image_extension p ->
  name_match p = false ->
  lookup_node w p = Some (File (Ok img)) ->
  img_getexif img = Ok (Some exif) ->
  tag ∈ photo_tags ->
  exif !! tag = Some v ->
  is_screenshot p w = (Ok false, log (EvOpen p) w).
Proof.
  intros Hext Hname Hn Hexif Htag Hv.
  rewrite (is_screenshot_inspects _ _ Hext Hname), (inspect_opened _ _ _ Hn), Hexif.
  now rewrite (truthy_photo_tag _ _ _ Htag Hv).
Qed.

Lemma photo_tag_excludes_witness :
  is_screenshot (Pathlib.of_str "album/IMG_0001.JPG") album =
    (Ok false, log (EvOpen (Pathlib.of_str "album/IMG_0001.JPG")) album).
Proof.
  apply (photo_tag_excludes (Pathlib.of_str "album/IMG_0001.JPG") album camera_photo
           {[ 271 := ExifText "Canon"; 33437 := ExifRational 28 10 ]}
           33437 (ExifRational 28 10)).
  - compute_done.
  - vm_compute. reflexivity.
  - vm_compute. reflexivity.
  - reflexivity.
  - compute_done.
  - vm_compute. reflexivity.
Defined.

(** C5.  A classification never raises: it always returns a verdict, and
    whenever the inspection of the file raises, at the open, at the EXIF read
    or later, the verdict is false. *)
Theorem is_screenshot_never_raises p w :
  (exists verdict w', is_screenshot p w = (Ok verdict, w')) /\
  (forall e w', name_match p = false -> inspect p w = (Raise e, w') ->
                fst (is_screenshot p w) = Ok false).
Proof.
  split.
  - destruct (decide (image_extension p)) as [Hext|Hext].
    + destruct (name_match p) eqn:Hname.
      * unfold is_screenshot. rewrite bool_decide_eq_true_2 by exact Hext.
        unfold name_match in Hname. cbn [negb]. rewrite Hname. now eexists _, _.
      * rewrite (is_screenshot_inspects _ _ Hext Hname).
        destruct (inspect p w) as [[[verdict|]|e] w']; now eexists _, _.
    + rewrite extension_gate_aux by exact Hext. now eexists _, _.
  - intros e w' Hname Hraise.
    destruct (decide (image_extension p)) as [Hext|Hext].
    + now rewrite (is_screenshot_inspects _ _ Hext Hname), Hraise.
    + now rewrite extension_gate_aux by exact Hext.
Qed.

(** A file that does not decode, a file that is missing and an image whose
    EXIF read fails all come out as not a screenshot. *)
Example broken_file_is_no_screenshot :
  fst (is_screenshot (Pathlib.of_str "album/broken.jpeg") album) = Ok false.
Proof. vm_compute. reflexivity. Qed.

Example missing_file_is_no_screenshot :
  fst (is_screenshot (Pathlib.of_str "album/gone.jpeg") album) = Ok false.
Proof. vm_compute. reflexivity. Qed.

Example failed_exif_read_is_no_screenshot :
  fst (inspect (Pathlib.of_str "album/scan.png") album) = Raise AttributeError /\
  fst (is_screenshot (Pathlib.of_str "album/scan.png") album) = Ok false.
Proof. vm_compute. split; reflexivity. Qed.

(** C6.  When the width or the height of the opened image is zero the
    verdict is false and the open is the only operation attempted: no ratio
    is computed.  In every classification, each division that is attempted
    has a divisor other than zero. *)
Theorem zero_side_guard p w img exif width height :
  image_extension p ->
  name_match p = false ->
  lookup_node w p = Some (File (Ok img)) ->
  img_getexif img = Ok exif ->
  img_size img = (width, height) ->
  width = 0 \/ height = 0 ->
  is_screenshot p w = (Ok false, log (EvOpen p) w) /\
  (forall q v, exists new,
      trace (snd (is_screenshot q v)) = trace v ++ new /\
      forall a b, EvDivide a b ∈ new -> b <> 0).
Proof.
  intros Hext Hname Hn Hexif Hsize Hzero. split; [|apply divisors_nonzero].
  rewrite (is_screenshot_inspects _ _ Hext Hname), (inspect_opened _ _ _ Hn), Hexif, Hsize.
  cbn [fst snd].
  destruct (truthy exif && has_photo_tag exif); [reflexivity|].
  assert (Hz : (width =? 0) || (height =? 0) = true).
  { apply orb_true_iff. destruct Hzero; [left|right]; now apply Z.eqb_eq. }
  now rewrite Hz.
Qed.

Lemma zero_side_guard_witness :
  is_screenshot (Pathlib.of_str "album/empty.webp") album =
    (Ok false, log (EvOpen (Pathlib.of_str "album/empty.webp")) album).
Proof.
  apply (zero_side_guard (Pathlib.of_str "album/empty.webp") album empty_image None 0 600).
  - compute_done.
  - vm_compute. reflexivity.
  - vm_compute. reflexivity.
  - reflexivity.
  - reflexivity.
  - left. reflexivity.
Defined.

(** * Floating-point division of image sides *)

Lemma digits2_pos_bounds p :
  2 ^ (Z.pos (digits2_pos p) - 1) <= Z.pos p < 2 ^ Z.pos (digits2_pos p).
Proof.
  induction p as [p IH|p IH|]; cbn [digits2_pos].
  - rewrite Pos2Z.inj_succ, (Pos2Z.inj_xI p).
    replace (Z.succ (Z.pos (digits2_pos p)) - 1) with (Z.succ (Z.pos (digits2_pos p) - 1)) by lia.
    rewrite !Z.pow_succ_r by lia.
    remember (2 ^ (Z.pos (digits2_pos p) - 1)) as lo.
    remember (2 ^ Z.pos (digits2_pos p)) as hi. lia.
  - rewrite Pos2Z.inj_succ, (Pos2Z.inj_xO p).
    replace (Z.succ (Z.pos (digits2_pos p)) - 1) with (Z.succ (Z.pos (digits2_pos p) - 1)) by lia.
    rewrite !Z.pow_succ_r by lia.
    remember (2 ^ (Z.pos (digits2_pos p) - 1)) as lo.
    remember (2 ^ Z.pos (digits2_pos p)) as hi. lia.
  - cbn. lia.
Qed.

Lemma digits2_pos_unique p d :
  2 ^ (d - 1) <= Z.pos p < 2 ^ d -> Z.pos (digits2_pos p) = d.
Proof.
  intros [Hlo Hhi]. pose proof (digits2_pos_bounds p) as [Blo Bhi].
  set (D := Z.pos (digits2_pos p)) in *.
  assert (0 < d).
  { destruct (Z_lt_le_dec 0 d); [assumption|].
    assert (2 ^ d <= 2 ^ 0) by (apply Z.pow_le_mono_r; lia). cbn in *. lia. }
  destruct (Z.lt_trichotomy D d) as [Hlt|[Heq|Hgt]]; [|exact Heq|].
  - assert (2 ^ D <= 2 ^ (d - 1)) by (apply Z.pow_le_mono_r; lia). lia.
  - assert (2 ^ d <= 2 ^ (D - 1)) by (apply Z.pow_le_mono_r; lia). lia.
Qed.

Lemma scale_bounds x d s :
  2 ^ (d - 1) <= x < 2 ^ d -> 1 <= d -> 0 <= s ->
  2 ^ (d - 1 + s) <= x * 2 ^ s < 2 ^ (d + s).
Proof.
  intros Hx Hd Hs. rewrite !Z.pow_add_r by lia.
  assert (0 < 2 ^ s) by (apply Z.pow_pos_nonneg; lia).
  remember (2 ^ s) as S. remember (2 ^ (d - 1)) as lo. remember (2 ^ d) as hi. nia.
Qed.

Lemma Pos_iter_xO p n : Z.pos (Pos.iter xO p n) = Z.pos p * 2 ^ Z.pos n.
Proof.
  induction n as [|n IH] using Pos.peano_ind.
  - cbn. lia.
  - rewrite Pos.iter_succ, Pos2Z.inj_xO, IH, Pos2Z.inj_succ, Z.pow_succ_r by lia. lia.
Qed.

Lemma binary_round_aux_canonical s m e :
  Z.pos (digits2_pos m) = 53 -> -1074 <= e <= 971 ->
  binary_round_aux 53 1024 s (Z.pos m) e loc_Exact = S754_finite s m e.
Proof.
  intros Hd He. unfold binary_round_aux, shr_fexp. cbn [Zdigits2]. rewrite Hd.
  unfold fexp, emin.
  replace (Z.max (53 + e - 53) (3 - 1024 - 53) - e) with 0 by lia.
  cbn [shr shr_record_of_loc shr_m loc_of_shr_record round_nearest_even Zdigits2].
  rewrite Hd.
  replace (Z.max (53 + e - 53) (3 - 1024 - 53) - e) with 0 by lia.
  cbn [shr shr_record_of_loc shr_m].
  replace (e <=? 1024 - 53) with true by (symmetry; apply Z.leb_le; lia).
  reflexivity.
Qed.

(** [float(a)] for a positive int below 2^53: the mantissa is [a] shifted
    to 53 bits. *)
Lemma of_int_pos a :
  0 < a < 2 ^ 53 ->
  exists m s, Float.of_int a = S754_finite false m (- s) /\
              0 <= s <= 52 /\ Z.pos m = a * 2 ^ s /\ 2 ^ 52 <= Z.pos m < 2 ^ 53.
Proof.
  intros Ha. destruct a as [|p|p]; try lia.
  unfold Float.of_int, Float.prec, Float.emax, binary_normalize, binary_round.
  pose proof (digits2_pos_bounds p) as Hb.
  set (d := Z.pos (digits2_pos p)) in *.
  assert (Hd : 1 <= d <= 53).
  { split; [unfold d; lia|].
    destruct (Z_le_gt_dec d 53); [assumption|].
    assert (2 ^ 53 <= 2 ^ (d - 1)) by (apply Z.pow_le_mono_r; lia). lia. }
  unfold fexp, emin, shl_align.
  replace (Z.max (d + 0 - 53) (3 - 1024 - 53) - 0) with (d - 53) by lia.
  destruct (d - 53) as [|q|q] eqn:Hq; try lia.
  - exists p, 0. assert (d = 53) by lia.
    rewrite binary_round_aux_canonical by (fold d; lia).
    replace (d - 1) with 52 in Hb by lia. replace d with 53 in Hb by lia.
    cbn [Z.opp]. repeat split; try lia.
  - assert (Hs : Z.pos q = 53 - d) by lia.
    assert (Hm : Z.pos (Pos.iter xO p q) = Z.pos p * 2 ^ (53 - d))
      by (now rewrite Pos_iter_xO, Hs).
    assert (Hrange : 2 ^ 52 <= Z.pos p * 2 ^ (53 - d) < 2 ^ 53).
    { pose proof (scale_bounds (Z.pos p) d (53 - d) Hb) as Hsc.
      replace (d - 1 + (53 - d)) with 52 in Hsc by lia.
      replace (d + (53 - d)) with 53 in Hsc by lia. apply Hsc; lia. }
    exists (Pos.iter xO p q), (53 - d).
    rewrite binary_round_aux_canonical.
    + replace (Z.max (d + 0 - 53) (3 - 1024 - 53)) with (- (53 - d)) by lia.
      repeat split; try lia.
    + apply digits2_pos_unique. rewrite Hm. cbn. exact Hrange.
    + lia.
Qed.

Lemma new_location_spec m r :
  0 <= r < m ->
  new_location m r = if r =? 0 then loc_Exact else loc_Inexact (2 * r ?= m).
Proof.
  intros Hr. unfold new_location, new_location_even, new_location_odd.
  destruct (Z.even m) eqn:Hev; [reflexivity|].
  destruct (r =? 0); [reflexivity|]. f_equal.
  destruct (Z.compare_spec (2 * r + 1) m), (Z.compare_spec (2 * r) m);
    try reflexivity; try lia.
  subst m. rewrite Z.even_mul in Hev. discriminate Hev.
Qed.

Lemma shr_record_roundtrip m l :
  shr_m (shr_record_of_loc m l) = m /\
  loc_of_shr_record (shr_record_of_loc m l) = l.
Proof. destruct l as [|[| |]]; split; reflexivity. Qed.

Lemma binary_round_aux_renormalize mx ex lx :
  binary_round_aux 53 1024 false mx ex lx =
    Float.renormalize (round_nearest_even (shr_m (fst (shr_fexp 53 1024 mx ex lx)))
                               (loc_of_shr_record (fst (shr_fexp 53 1024 mx ex lx))))
           (snd (shr_fexp 53 1024 mx ex lx)).
Proof.
  unfold binary_round_aux, Float.renormalize.
  now destruct (shr_fexp 53 1024 mx ex lx) as [mrs' e'].
Qed.

Lemma shr_fexp_53 m e l :
  2 ^ 52 <= m < 2 ^ 53 -> -1074 <= e ->
  shr_fexp 53 1024 m e l = (shr_record_of_loc m l, e).
Proof.
  intros Hm He. destruct m as [|p|p]; try lia.
  unfold shr_fexp. cbn [Zdigits2]. rewrite (digits2_pos_unique p 53) by exact Hm.
  unfold fexp, emin.
  replace (Z.max (53 + e - 53) (3 - 1024 - 53) - e) with 0 by lia.
  reflexivity.
Qed.

Lemma shr_fexp_54 m e l :
  2 ^ 53 <= m < 2 ^ 54 -> -1074 <= e ->
  shr_fexp 53 1024 m e l = (shr_1 (shr_record_of_loc m l), e + 1).
Proof.
  intros Hm He. destruct m as [|p|p]; try lia.
  unfold shr_fexp. cbn [Zdigits2]. rewrite (digits2_pos_unique p 54) by exact Hm.
  unfold fexp, emin.
  replace (Z.max (54 + e - 53) (3 - 1024 - 53) - e) with 1 by lia.
  reflexivity.
Qed.

Lemma renormalize_spec m e :
  2 ^ 52 <= m <= 2 ^ 53 -> -1074 <= e <= 970 ->
  exists m' j, Float.renormalize m e = S754_finite false m' (e + j) /\
               2 ^ 52 <= Z.pos m' < 2 ^ 53 /\ 0 <= j <= 1 /\ Z.pos m' * 2 ^ j = m.
Proof.
  intros Hm He. unfold Float.renormalize.
  destruct (Z.eq_dec m (2 ^ 53)) as [->|Hne].
  - rewrite shr_fexp_54 by lia. cbn [shr_record_of_loc shr_1 shr_m Z.pow Z.pow_pos Pos.iter Z.mul Pos.mul].
    exists (4503599627370496%positive), 1.
    replace (e + 1 <=? 1024 - 53) with true by (symmetry; apply Z.leb_le; lia).
    cbn. repeat split; try lia.
  - rewrite shr_fexp_53 by lia. cbn [shr_record_of_loc shr_m].
    destruct m as [|p|p]; try lia. exists p, 0.
    replace (e <=? 1024 - 53) with true by (symmetry; apply Z.leb_le; lia).
    rewrite Z.add_0_r. repeat split; try lia.
Qed.

Lemma shr_1_pos m r s :
  0 <= m ->
  shr_1 (Build_shr_record m r s) = Build_shr_record (m / 2) (Z.odd m) (r || s).
Proof.
  intros Hm. destruct m as [|p|p]; [reflexivity| |lia].
  destruct p as [p|p|]; cbn [shr_1 Z.odd].
  - rewrite (Pos2Z.inj_xI p).
    replace (2 * Z.pos p + 1) with (Z.pos p * 2 + 1) by lia.
    rewrite Z.div_add_l by lia. reflexivity.
  - rewrite (Pos2Z.inj_xO p).
    replace (2 * Z.pos p) with (Z.pos p * 2) by lia.
    now rewrite Z.div_mul by lia.
  - reflexivity.
Qed.

(** Rounding the quotient [num / d] (with remainder [r]) to 53 bits: the
    result is within half a unit in the last place of the exact quotient. *)
Lemma round_quotient num d q r e :
  0 < d -> num = d * q + r -> 0 <= r < d ->
  2 ^ 52 <= q < 2 ^ 54 -> -1074 <= e <= 968 ->
  exists m t,
    binary_round_aux 53 1024 false q e (new_location d r) = S754_finite false m (e + t) /\
    2 ^ 52 <= Z.pos m < 2 ^ 53 /\ 0 <= t <= 2 /\
    (2 * Z.pos m - 1) * 2 ^ t * d <= 2 * num <= (2 * Z.pos m + 1) * 2 ^ t * d.
Proof.
  intros Hd HN Hr Hq He. rewrite binary_round_aux_renormalize, new_location_spec by exact Hr.
  destruct (Z_lt_le_dec q (2 ^ 53)) as [Hsmall|Hbig].
  - rewrite shr_fexp_53 by lia. cbn [fst snd].
    destruct (shr_record_roundtrip q (if r =? 0 then loc_Exact else loc_Inexact (2 * r ?= d)))
      as [-> ->].
    set (m1 := round_nearest_even q _).
    assert (Hm1 : (m1 = q \/ m1 = q + 1) /\ (2 * m1 - 1) * d <= 2 * num <= (2 * m1 + 1) * d).
    { unfold m1. destruct (Z.eqb_spec r 0) as [->|Hr0]; cbn [round_nearest_even].
      - split; [now left|]. nia.
      - destruct (Z.compare_spec (2 * r) d).
        + destruct (Z.even q); (split; [auto|nia]).
        + split; [now left|]. nia.
        + split; [now right|]. nia. }
    destruct Hm1 as [Hm1 Hsand].
    destruct (renormalize_spec m1 e) as (m & j & -> & Hm & Hj & Hval); try lia.
    exists m, j. split; [reflexivity|]. split; [exact Hm|]. split; [lia|].
    rewrite <- Hval in Hsand.
    assert (Hj' : j = 0 \/ j = 1) by lia.
    destruct Hj' as [->| ->];
      [change (2 ^ 0) with 1 in *|change (2 ^ 1) with 2 in *]; nia.
  - rewrite shr_fexp_54 by lia. cbn [fst snd].
    assert (Hrec : shr_1 (shr_record_of_loc q (if r =? 0 then loc_Exact else loc_Inexact (2 * r ?= d)))
                   = Build_shr_record (q / 2) (Z.odd q) (negb (r =? 0))).
    { destruct (r =? 0); [|destruct (2 * r ?= d)]; cbn [shr_record_of_loc];
        rewrite shr_1_pos by lia; reflexivity. }
    rewrite Hrec. cbn [shr_m].
    pose proof (Z.div_mod q 2 ltac:(lia)) as Hq2.
    pose proof (Z.mod_pos_bound q 2 ltac:(lia)) as Hq2b.
    rewrite Zmod_odd in Hq2, Hq2b.
    set (h := q / 2) in *.
    set (m1 := round_nearest_even h _).
    assert (Hm1 : (m1 = h \/ m1 = h + 1) /\ (2 * m1 - 1) * d <= num <= (2 * m1 + 1) * d).
    { unfold m1. destruct (Z.odd q); destruct (Z.eqb_spec r 0) as [->|Hr0];
        cbn [negb loc_of_shr_record round_nearest_even].
      - destruct (Z.even h); (split; [auto|nia]).
      - split; [now right|]. nia.
      - split; [now left|]. nia.
      - split; [now left|]. nia. }
    destruct Hm1 as [Hm1 Hsand].
    destruct (renormalize_spec m1 (e + 1)) as (m & j & -> & Hm & Hj & Hval); try lia.
    exists m, (1 + j). split; [f_equal; lia|]. split; [exact Hm|]. split; [lia|].
    rewrite <- Hval in Hsand.
    assert (Hj' : j = 0 \/ j = 1) by lia.
    destruct Hj' as [->| ->];
      [change (2 ^ 0) with 1 in *; change (2 ^ (1 + 0)) with 2
      |change (2 ^ 1) with 2 in *; change (2 ^ (1 + 1)) with 4]; nia.
Qed.

Lemma quotient_bounds num d q r :
  2 ^ 105 <= num < 2 ^ 106 -> 2 ^ 52 <= d < 2 ^ 53 ->
  num = d * q + r -> 0 <= r < d -> 2 ^ 52 <= q < 2 ^ 54.
Proof.
  change (2 ^ 105) with 40564819207303340847894502572032.
  change (2 ^ 106) with 81129638414606681695789005144064.
  change (2 ^ 52) with 4503599627370496.
  change (2 ^ 53) with 9007199254740992.
  change (2 ^ 54) with 18014398509481984.
  intros HN Hd -> Hr. split.
  - destruct (Z_le_gt_dec 4503599627370496 q); [assumption|]. nia.
  - destruct (Z_lt_le_dec q 18014398509481984); [assumption|]. nia.
Qed.

(** Dividing two doubles with 53-bit mantissas, in the exponent range of
    the integers: the quotient of the mantissas is rounded to nearest. *)
Lemma div_canonical m1 e1 m2 e2 :
  2 ^ 52 <= Z.pos m1 < 2 ^ 53 -> 2 ^ 52 <= Z.pos m2 < 2 ^ 53 ->
  -52 <= e1 <= 0 -> -52 <= e2 <= 0 ->
  exists m t,
    Float.div (S754_finite false m1 e1) (S754_finite false m2 e2) =
      S754_finite false m (e1 - e2 - 53 + t) /\
    2 ^ 52 <= Z.pos m < 2 ^ 53 /\ 0 <= t <= 2 /\
    (2 * Z.pos m - 1) * 2 ^ t * Z.pos m2 <= 2 * (Z.pos m1 * 2 ^ 53)
      <= (2 * Z.pos m + 1) * 2 ^ t * Z.pos m2.
Proof.
  intros Hm1 Hm2 He1 He2.
  unfold Float.div, Float.prec, Float.emax, SFdiv, SFdiv_core_binary. cbn [Zdigits2 xorb].
  rewrite (digits2_pos_unique m1 53), (digits2_pos_unique m2 53) by assumption.
  unfold fexp, emin.
  replace (Z.min (Z.max (53 + e1 - (53 + e2) - 53) (3 - 1024 - 53)) (e1 - e2))
    with (e1 - e2 - 53) by lia.
  replace (e1 - e2 - (e1 - e2 - 53)) with 53 by lia.
  cbv iota. rewrite Z.shiftl_mul_pow2 by lia.
  pose proof (Z_div_mod (Z.pos m1 * 2 ^ 53) (Z.pos m2) ltac:(lia)) as Hdiv.
  destruct (Z.div_eucl (Z.pos m1 * 2 ^ 53) (Z.pos m2)) as [q r].
  destruct Hdiv as [HN Hr].
  apply round_quotient; try assumption; try lia.
  apply (quotient_bounds (Z.pos m1 * 2 ^ 53) (Z.pos m2) q r); try assumption.
  change (2 ^ 105) with (2 ^ 52 * 2 ^ 53). change (2 ^ 106) with (2 ^ 53 * 2 ^ 53).
  lia.
Qed.

(** Python's [a / b] for ints [0 < b <= a < 2^53]: a double [m * 2^(K-52)]
    with a 53-bit mantissa, within half a unit in the last place of the
    exact quotient. *)
Lemma ratio_rounding a b :
  0 < b <= a -> a < 2 ^ 53 ->
  exists m K,
    Float.div (Float.of_int a) (Float.of_int b) = S754_finite false m (K - 52) /\
    2 ^ 52 <= Z.pos m < 2 ^ 53 /\ 0 <= K /\
    (2 * Z.pos m - 1) * b * 2 ^ K <= a * 2 ^ 53 <= (2 * Z.pos m + 1) * b * 2 ^ K.
Proof.
  intros Hab Ha.
  destruct (of_int_pos a) as (m1 & sa & -> & Hsa & Hv1 & Hr1); [lia|].
  destruct (of_int_pos b) as (m2 & sb & -> & Hsb & Hv2 & Hr2); [lia|].
  destruct (div_canonical m1 (- sa) m2 (- sb)) as (m & t & -> & Hm & Ht & Hsand);
    try assumption; try lia.
  rewrite Hv1, Hv2 in Hsand.
  assert (HV : 0 < 2 ^ sa) by (apply Z.pow_pos_nonneg; lia).
  assert (HU : 2 ^ t * 2 ^ sb = 2 ^ (t + sb)) by (rewrite Z.pow_add_r; lia).
  assert (HK : 0 <= sb - sa - 1 + t).
  { destruct (Z_le_gt_dec 0 (sb - sa - 1 + t)) as [|Hneg]; [assumption|exfalso].
    assert (Hle : 2 ^ (t + sb) <= 2 ^ sa) by (apply Z.pow_le_mono_r; lia).
    rewrite <- HU in Hle.
    change (2 ^ 53) with 9007199254740992 in *.
    change (2 ^ 52) with 4503599627370496 in *.
    remember (2 ^ sa) as V. remember (2 ^ sb) as W. remember (2 ^ t) as T.
    assert (0 < T * W) by (subst; rewrite HU; apply Z.pow_pos_nonneg; lia).
    assert (H1 : 2 * (a * V * 9007199254740992) <= (2 * Z.pos m + 1) * b * V).
    { transitivity ((2 * Z.pos m + 1) * T * (b * W)); [lia|].
      replace ((2 * Z.pos m + 1) * T * (b * W)) with ((2 * Z.pos m + 1) * b * (T * W)) by ring.
      apply Z.mul_le_mono_nonneg_l; [nia|exact Hle]. }
    assert (H2 : 2 * (a * 9007199254740992) <= (2 * Z.pos m + 1) * b).
    { apply (Z.mul_le_mono_pos_r _ _ V); [exact HV|]. lia. }
    assert (H3 : (2 * Z.pos m + 1) * b <= 18014398509481983 * b)
      by (apply Z.mul_le_mono_nonneg_r; lia).
    lia. }
  exists m, (sb - sa - 1 + t). split; [f_equal; lia|]. split; [exact Hm|]. split; [exact HK|].
  assert (HP : 2 ^ (t + sb) = 2 ^ (sb - sa - 1 + t) * (2 * 2 ^ sa)).
  { replace (t + sb) with ((sb - sa - 1 + t) + Z.succ sa) by lia.
    rewrite Z.pow_add_r, Z.pow_succ_r by lia. reflexivity. }
  rewrite <- HU in HP.
  remember (2 ^ sa) as V. remember (2 ^ sb) as W. remember (2 ^ t) as T.
  remember (2 ^ (sb - sa - 1 + t)) as P.
  remember (2 ^ 53) as C.
  assert (Hlo : (2 * Z.pos m - 1) * b * P * (2 * V) <= a * C * (2 * V)).
  { replace ((2 * Z.pos m - 1) * b * P * (2 * V))
      with ((2 * Z.pos m - 1) * b * (P * (2 * V))) by ring.
    rewrite <- HP. lia. }
  assert (Hhi : a * C * (2 * V) <= (2 * Z.pos m + 1) * b * P * (2 * V)).
  { replace ((2 * Z.pos m + 1) * b * P * (2 * V))
      with ((2 * Z.pos m + 1) * b * (P * (2 * V))) by ring.
    rewrite <- HP. lia. }
  split; apply (Z.mul_le_mono_pos_r _ _ (2 * V)); try lia.
Qed.

Lemma SFleb_finite m1 e1 m2 e2 :
  SFleb (S754_finite false m1 e1) (S754_finite false m2 e2) = true <->
  e1 < e2 \/ (e1 = e2 /\ Z.pos m1 <= Z.pos m2).
Proof.
  unfold SFleb, SFcompare.
  destruct (Z.compare_spec e1 e2) as [He|He|He].
  - change (Pos.compare_cont Eq m1 m2) with (Pos.compare m1 m2).
    destruct (Pos.compare_spec m1 m2) as [Hm|Hm|Hm]; split; try lia; try discriminate;
      intros _; reflexivity.
  - split; [lia|reflexivity].
  - split; [discriminate|lia].
Qed.

(** What is known of [a / b] as a double, in the three cases of its
    exponent, in a form that linear arithmetic can use: [mb] stands for the
    product of the mantissa and [b]. *)
Lemma ratio_cases a b :
  0 < b <= a -> a < 2 ^ 53 ->
  exists m K,
    Float.div (Float.of_int a) (Float.of_int b) = S754_finite false m (K - 52) /\
    4503599627370496 <= Z.pos m < 9007199254740992 /\
    ((K = 0 /\ (2 * Z.pos m - 1) * b <= a * 9007199254740992 <= (2 * Z.pos m + 1) * b) \/
     (K = 1 /\ (2 * Z.pos m - 1) * b * 2 <= a * 9007199254740992 <= (2 * Z.pos m + 1) * b * 2) \/
     (2 <= K /\ 9007199254740991 * b * 4 <= a * 9007199254740992)).
Proof.
  intros Hab Ha.
  destruct (ratio_rounding a b Hab Ha) as (m & K & Hdiv & Hm & HK & Hsand).
  exists m, K. split; [exact Hdiv|].
  change (2 ^ 52) with 4503599627370496 in Hm.
  change (2 ^ 53) with 9007199254740992 in Hm, Hsand.
  split; [exact Hm|].
  destruct (Z.eq_dec K 0) as [->|H0]; [left|right].
  { change (2 ^ 0) with 1 in Hsand. split; [reflexivity|lia]. }
  destruct (Z.eq_dec K 1) as [->|H1]; [left|right].
  { change (2 ^ 1) with 2 in Hsand. split; [reflexivity|lia]. }
  split; [lia|].
  assert (HP : 2 ^ 2 <= 2 ^ K) by (apply Z.pow_le_mono_r; lia).
  change (2 ^ 2) with 4 in HP. remember (2 ^ K) as P.
  transitivity ((2 * Z.pos m - 1) * b * P); [|lia].
  transitivity ((2 * Z.pos m - 1) * b * 4).
  - apply Z.mul_le_mono_nonneg_r; [lia|]. apply Z.mul_le_mono_nonneg_r; lia.
  - apply Z.mul_le_mono_nonneg_l; [nia|exact HP].
Qed.

Ltac mantissa_products m mL b :=
  let H1 := fresh in let H2 := fresh in let H3 := fresh in let H4 := fresh in
  assert (H1 : mL <= Z.pos m -> mL * b <= Z.pos m * b)
    by (intros; apply Z.mul_le_mono_nonneg_r; lia);
  assert (H2 : Z.pos m <= mL - 1 -> Z.pos m * b <= (mL - 1) * b)
    by (intros; apply Z.mul_le_mono_nonneg_r; lia);
  assert (H3 : 4503599627370496 * b <= Z.pos m * b)
    by (apply Z.mul_le_mono_nonneg_r; lia);
  assert (H4 : Z.pos m * b <= 9007199254740991 * b)
    by (apply Z.mul_le_mono_nonneg_r; lia).

Ltac mantissa_products_above m mL b :=
  let H1 := fresh in let H2 := fresh in let H3 := fresh in let H4 := fresh in
  assert (H1 : Z.pos m <= mL -> Z.pos m * b <= mL * b)
    by (intros; apply Z.mul_le_mono_nonneg_r; lia);
  assert (H2 : mL + 1 <= Z.pos m -> (mL + 1) * b <= Z.pos m * b)
    by (intros; apply Z.mul_le_mono_nonneg_r; lia);
  assert (H3 : 4503599627370496 * b <= Z.pos m * b)
    by (apply Z.mul_le_mono_nonneg_r; lia);
  assert (H4 : Z.pos m * b <= 9007199254740991 * b)
    by (apply Z.mul_le_mono_nonneg_r; lia).

Ltac settle_upper a b mL :=
  intros Hab Ha;
  destruct (ratio_cases a b) as (m & K & -> & Hm & Hcases); [lia|lia|];
  rewrite SFleb_finite;
  mantissa_products_above m mL b;
  destruct Hcases as [[-> Hs]|[[-> Hs]|[HK Hs]]];
  (split; [intros [Hlt|[Heq Hle]]|intros Hreal]); try lia;
  destruct (Z_le_gt_dec (Z.pos m) mL); lia.

Ltac settle_lower a b mL :=
  intros Hab Ha;
  destruct (ratio_cases a b) as (m & K & -> & Hm & Hcases); [lia|lia|];
  rewrite SFleb_finite;
  mantissa_products m mL b;
  destruct Hcases as [[-> Hs]|[[-> Hs]|[HK Hs]]];
  (split; [intros [Hlt|[Heq Hle]]|intros Hreal]); try lia;
  destruct (Z_le_gt_dec mL (Z.pos m)); lia.

Lemma lower_1_30 a b : 0 < b <= a -> a < 2 ^ 32 ->
  Float.leb Float.lit_1_30 (Float.div (Float.of_int a) (Float.of_int b)) = true <-> 130 * b <= 100 * a.
Proof. unfold Float.leb, Float.lit_1_30. change (2 ^ 32) with 4294967296. settle_lower a b (5854679515581645%Z). Qed.

Lemma upper_1_36 a b : 0 < b <= a -> a < 2 ^ 32 ->
  Float.leb (Float.div (Float.of_int a) (Float.of_int b)) Float.lit_1_36 = true <-> 100 * a <= 136 * b.
Proof. unfold Float.leb, Float.lit_1_36. change (2 ^ 32) with 4294967296. settle_upper a b (6124895493223875%Z). Qed.

Lemma lower_1_75 a b : 0 < b <= a -> a < 2 ^ 32 ->
  Float.leb Float.lit_1_75 (Float.div (Float.of_int a) (Float.of_int b)) = true <-> 175 * b <= 100 * a.
Proof. unfold Float.leb, Float.lit_1_75. change (2 ^ 32) with 4294967296. settle_lower a b (7881299347898368%Z). Qed.

Lemma upper_1_80 a b : 0 < b <= a -> a < 2 ^ 32 ->
  Float.leb (Float.div (Float.of_int a) (Float.of_int b)) Float.lit_1_80 = true <-> 100 * a <= 180 * b.
Proof. unfold Float.leb, Float.lit_1_80. change (2 ^ 32) with 4294967296. settle_upper a b (8106479329266893%Z). Qed.

Lemma lower_1_95 a b : 0 < b <= a -> a < 2 ^ 32 ->
  Float.leb Float.lit_1_95 (Float.div (Float.of_int a) (Float.of_int b)) = true <-> 195 * b <= 100 * a.
Proof. unfold Float.leb, Float.lit_1_95. change (2 ^ 32) with 4294967296. settle_lower a b (8782019273372467%Z). Qed.

Lemma upper_2_40 a b : 0 < b <= a -> a < 2 ^ 32 ->
  Float.leb (Float.div (Float.of_int a) (Float.of_int b)) Float.lit_2_40 = true <-> 100 * a <= 240 * b.
Proof. unfold Float.leb, Float.lit_2_40. change (2 ^ 32) with 4294967296. settle_upper a b (5404319552844595%Z). Qed.






(** The boundaries are met exactly: 13:10 and 12:5 are inside, one pixel
    more on the long side of 2400x1000 is outside. *)
Example boundary_ratios :
  in_ranges (Float.div (Float.of_int 1300) (Float.of_int 1000)) = true /\
  in_ranges (Float.div (Float.of_int 2400) (Float.of_int 1000)) = true /\
  in_ranges (Float.div (Float.of_int 2401) (Float.of_int 1000)) = false /\
  in_ranges (Float.div (Float.of_int 1299) (Float.of_int 1000)) = false /\
  in_ranges (Float.div (Float.of_int 1024) (Float.of_int 1024)) = false.
Proof. vm_compute. repeat split; reflexivity. Qed.

(** * Properties of the driver *)

Lemma add_events_nil w : add_events [] w = w.
Proof. destruct w. unfold add_events. cbn. now rewrite app_nil_r. Qed.

Lemma add_events_app l1 l2 w : add_events l2 (add_events l1 w) = add_events (l1 ++ l2) w.
Proof. unfold add_events. cbn. now rewrite app_assoc. Qed.

Lemma log_add_events ev w : log ev w = add_events [ev] w.
Proof. reflexivity. Qed.

(** A classification returns, and all it does to the world is to attempt an
    open and possibly a division. *)
Lemma is_screenshot_effect p w :
  exists verdict new,
    is_screenshot p w = (Ok verdict, add_events new w) /\
    Forall (fun ev => is_transfer ev = false) new.
Proof.
  destruct (decide (image_extension p)) as [Hext|Hext];
    [destruct (name_match p) eqn:Hname|].
  - exists true, []. rewrite add_events_nil. split; [|constructor].
    unfold is_screenshot. rewrite bool_decide_eq_true_2 by exact Hext.
    unfold name_match in Hname. cbn [negb]. now rewrite Hname.
  - rewrite (is_screenshot_inspects _ _ Hext Hname).
    destruct (lookup_node w p) as [[|[img|e]]|] eqn:Hn.
    2: { rewrite (inspect_opened _ _ _ Hn).
      destruct (img_getexif img) as [exif|e];
        [|exists false, [EvOpen p]; split; [reflexivity|repeat constructor]].
      destruct (truthy exif && has_photo_tag exif);
        [exists false, [EvOpen p]; split; [reflexivity|repeat constructor]|].
      destruct ((fst (img_size img) =? 0) || (snd (img_size img) =? 0));
        [exists false, [EvOpen p]; split; [reflexivity|repeat constructor]|].
      cbv zeta. rewrite !log_add_events, add_events_app.
      destruct (in_ranges _); eexists _, _; (split; [reflexivity|repeat constructor]). }
    all: destruct (inspect_open_fails p w) as [e' He'];
      [intros img' Himg; congruence|];
      rewrite He'; exists false, [EvOpen p]; split; [reflexivity|repeat constructor].
  - exists false, []. rewrite add_events_nil. split; [|constructor].
    now apply extension_gate_aux.
Qed.

Lemma collect_effect files : forall acc w,
  exists found new,
    collect files acc w = (Ok found, add_events new w) /\
    Forall (fun ev => is_transfer ev = false) new.
Proof.
  induction files as [|f rest IH]; intros acc w.
  - exists acc, []. rewrite add_events_nil. split; [reflexivity|constructor].
  - destruct (is_screenshot_effect f w) as (hit & new1 & Hhit & Hnew1).
    cbn [collect]. unfold mbind, M_bind. rewrite Hhit.
    destruct (IH (if hit then acc ++ [f] else acc) (add_events new1 w))
      as (found & new2 & Hrest & Hnew2).
    exists found, (new1 ++ new2). rewrite <- add_events_app. split; [exact Hrest|].
    now apply Forall_app.
Qed.

(** Scanning returns; it prints one line, changes no file and attempts no
    transfer. *)
Lemma scan_effect root w :
  exists found new,
    scan root w = (Ok found, say (MsgScanning root) (add_events new w)) /\
    Forall (fun ev => is_transfer ev = false) new.
Proof.
  unfold scan, console_print, rglob, emit, get_world, mbind, M_bind. cbn [mret M_ret].
  match goal with
  | |- context [collect ?files [] ?v] =>
      destruct (collect_effect files [] v) as (found & new & Hc & Hnew)
  end.
  exists found, (EvRglob root :: new). split.
  - rewrite Hc. f_equal. unfold add_events, log, say. cbn. f_equal.
    now rewrite <- app_assoc.
  - constructor; [reflexivity|exact Hnew].
Qed.



Lemma try_except_total {A} (body : M A) (h : exn -> M A) w :
  try_except body (fun e => Some (h e)) w =
    match body w with
    | (Ok a, w') => (Ok a, w')
    | (Raise e, w') => h e w'
    end.
Proof. unfold try_except. now destruct (body w) as [[a|e] w']. Qed.

(** One turn of the transfer loop never raises. *)
Lemma transfer_returns dest action_type f w :
  fst (transfer dest action_type f w) = Ok tt.
Proof.
  unfold transfer. rewrite try_except_total.
  match goal with |- context [match ?b w with _ => _ end] => destruct (b w) as [[[]|e] w'] end;
    reflexivity.
Qed.

Lemma for_each_transfer dest action_type found : forall w,
  for_each (transfer dest action_type) found w =
    (Ok tt, fold_left (fun v f => snd (transfer dest action_type f v)) found w).
Proof.
  induction found as [|f rest IH]; intros w; [reflexivity|].
  cbn [for_each fold_left]. unfold mbind, M_bind.
  pose proof (transfer_returns dest action_type f w) as Hret.
  destruct (transfer dest action_type f w) as [r w']. cbn in Hret. subst r.
  apply IH.
Qed.

(** ** The claims about the driver *)

(** C7.  When the root directory does not exist the run prints the error
    line and ends with exit status 1; nothing else happens: the files and the
    list of attempted operations are as before, so nothing was scanned or
    classified. *)
Theorem missing_root_exits folder copy_to move_to w :
  lookup_node w (Pathlib.of_str folder) = None ->
  app folder copy_to move_to w = (1, say (MsgRootMissing folder) w).
Proof.
  intros Hroot. unfold app, main, Path_exists, get_world, mbind, M_bind.
  cbn [mret M_ret]. rewrite Hroot.
  rewrite bool_decide_eq_false_2 by (intros [n Hn]; discriminate Hn).
  reflexivity.
Qed.

Lemma missing_root_exits_witness :
  app "vacation" (Some "out") None album = (1, say (MsgRootMissing "vacation") album).
Proof.
  apply (missing_root_exits "vacation" (Some "out") None album).
  vm_compute. reflexivity.
Defined.


(** *** Making the destination directory *)

Lemma with_fs_id w : with_fs (fs w) w = w.
Proof. now destruct w. Qed.


Lemma lookup_node_None w p : lookup_node w p = None -> fs w !! p = None.
Proof. unfold lookup_node. now destruct (parts p). Qed.


Lemma lookup_node_with_fs m w p :
  lookup_node (with_fs m w) p = match parts p with [] => Some Dir | _ :: _ => m !! p end.
Proof. reflexivity. Qed.

(** The four ways [os.mkdir] can go. *)
Lemma os_mkdir_cases p w :
  (os_mkdir p w = (Ok tt, with_fs (<[p := Dir]> (fs w)) w) /\
   lookup_node w (Pathlib.parent p) = Some Dir /\ lookup_node w p = None) \/
  (os_mkdir p w = (Raise (OSError FileNotFoundError), w) /\
   lookup_node w (Pathlib.parent p) = None) \/
  (os_mkdir p w = (Raise (OSError NotADirectoryError), w) /\
   exists c, lookup_node w (Pathlib.parent p) = Some (File c)) \/
  (os_mkdir p w = (Raise (OSError FileExistsError), w) /\
   lookup_node w (Pathlib.parent p) = Some Dir /\ is_Some (lookup_node w p)).
Proof.
  unfold os_mkdir, get_world, mbind, M_bind. cbn [mret M_ret].
  destruct (lookup_node w (Pathlib.parent p)) as [[|c]|] eqn:Hp.
  - destruct (lookup_node w p) as [n|] eqn:Hs.
    + right. right. right. eauto.
    + left. eauto.
  - right. right. left. eauto.
  - right. left. eauto.
Qed.

Lemma mkdir_exist_ok_grows self w :
  exists r m, mkdir_exist_ok self w = (r, with_fs m w) /\ fs w ⊆ m.
Proof.
  unfold mkdir_exist_ok, try_except.
  destruct (os_mkdir_cases self w)
    as [(-> & _ & Hs)|[(-> & _)|[(-> & _)|(-> & _ & _)]]].
  - eexists _, _. split; [reflexivity|].
    apply insert_subseteq. now apply lookup_node_None.
  - exists (Raise (OSError FileNotFoundError)), (fs w). now rewrite with_fs_id.
  - unfold unless_is_dir, get_world, mbind, M_bind. cbn [mret M_ret].
    destruct (is_dir w self); eexists _, (fs w); now rewrite with_fs_id.
  - unfold unless_is_dir, get_world, mbind, M_bind. cbn [mret M_ret].
    destruct (is_dir w self); eexists _, (fs w); now rewrite with_fs_id.
Qed.

(** Whatever its outcome, [mkdir] only adds entries. *)
Lemma mkdir_parents_grows a rp : forall w,
  exists r m, mkdir_parents a rp w = (r, with_fs m w) /\ fs w ⊆ m.
Proof.
  induction rp as [|c up IH]; intros w; cbn [mkdir_parents]; unfold try_except.
  - destruct (os_mkdir_cases (mkPath a (rev [])) w)
      as [(-> & _ & Hs)|[(-> & _)|[(-> & _)|(-> & _ & _)]]].
    + eexists _, _. split; [reflexivity|].
      apply insert_subseteq. now apply lookup_node_None.
    + exists (Raise (OSError FileNotFoundError)), (fs w). now rewrite with_fs_id.
    + unfold unless_is_dir, get_world, mbind, M_bind. cbn [mret M_ret].
      destruct (is_dir w _); eexists _, (fs w); now rewrite with_fs_id.
    + unfold unless_is_dir, get_world, mbind, M_bind. cbn [mret M_ret].
      destruct (is_dir w _); eexists _, (fs w); now rewrite with_fs_id.
  - destruct (os_mkdir_cases (mkPath a (rev (c :: up))) w)
      as [(-> & _ & Hs)|[(-> & _)|[(-> & _)|(-> & _ & _)]]].
    + eexists _, _. split; [reflexivity|].
      apply insert_subseteq. now apply lookup_node_None.
    + unfold mbind, M_bind.
      destruct (IH w) as (r1 & m1 & -> & Hm1).
      destruct r1 as [[]|e]; [|now eexists _, _].
      destruct (mkdir_exist_ok_grows (mkPath a (rev (c :: up))) (with_fs m1 w))
        as (r2 & m2 & -> & Hm2).
      exists r2, m2. split; [reflexivity|]. now transitivity m1.
    + unfold unless_is_dir, get_world, mbind, M_bind. cbn [mret M_ret].
      destruct (is_dir w _); eexists _, (fs w); now rewrite with_fs_id.
    + unfold unless_is_dir, get_world, mbind, M_bind. cbn [mret M_ret].
      destruct (is_dir w _); eexists _, (fs w); now rewrite with_fs_id.
Qed.






(** *** Worlds that only grow *)

Lemma nothing_moved_refl w : nothing_moved w w.
Proof. split; [reflexivity|]. exists []. now rewrite app_nil_r. Qed.

Lemma nothing_moved_trans w1 w2 w3 :
  nothing_moved w1 w2 -> nothing_moved w2 w3 -> nothing_moved w1 w3.
Proof.
  intros [Hs1 (n1 & Ht1 & Hn1)] [Hs2 (n2 & Ht2 & Hn2)]. split.
  - now transitivity (fs w2).
  - exists (n1 ++ n2). rewrite Ht2, Ht1, app_assoc. split; [reflexivity|].
    now apply Forall_app.
Qed.

Lemma nothing_moved_say m w : nothing_moved w (say m w).
Proof. split; [reflexivity|]. exists []. cbn. now rewrite app_nil_r. Qed.

Lemma nothing_moved_log ev w : is_move ev = false -> nothing_moved w (log ev w).
Proof. intros Hev. split; [reflexivity|]. exists [ev]. now repeat constructor. Qed.

Lemma nothing_moved_with_fs m w : fs w ⊆ m -> nothing_moved w (with_fs m w).
Proof. intros Hm. split; [exact Hm|]. exists []. cbn. now rewrite app_nil_r. Qed.

Lemma nothing_moved_add_events new w :
  Forall (fun ev => is_transfer ev = false) new -> nothing_moved w (add_events new w).
Proof.
  intros Hnew. split; [reflexivity|]. exists new. split; [reflexivity|].
  eapply Forall_impl; [exact Hnew|]. intros [] ?; try reflexivity. discriminate.
Qed.

Lemma transfer_copy_grows dest f w :
  nothing_moved w (snd (transfer dest (Some Copy) f w)).
Proof.
  unfold transfer. rewrite try_except_total.
  unfold Path_exists, get_world, mbind, M_bind. cbn [mret M_ret].
  set (target := Pathlib.joinpath dest (Pathlib.name f)).
  destruct (lookup_node w target) as [n|] eqn:Ht.
  - rewrite bool_decide_eq_true_2 by eauto. apply nothing_moved_say.
  - rewrite bool_decide_eq_false_2 by (intros [n Hn]; discriminate Hn).
    unfold shutil_copy2, emit, get_world, mbind, M_bind.
    assert (Hlog : nothing_moved w (log (EvTransfer Copy f target) w))
      by now apply nothing_moved_log.
    replace (transfer_fault (log _ w)) with (transfer_fault w) by reflexivity.
    replace (lookup_node (log (EvTransfer Copy f target) w) f)
      with (lookup_node w f) by reflexivity.
    destruct (transfer_fault w !! f) as [e|];
      [cbn; eapply nothing_moved_trans; [exact Hlog|apply nothing_moved_say]|].
    destruct (lookup_node w f) as [[|c]|];
      try (cbn; eapply nothing_moved_trans; [exact Hlog|apply nothing_moved_say]).
    cbn. eapply nothing_moved_trans; [exact Hlog|].
    apply nothing_moved_with_fs. cbn. apply insert_subseteq.
    now apply lookup_node_None.
Qed.

Lemma for_each_copy_grows dest found : forall w,
  nothing_moved w (snd (for_each (transfer dest (Some Copy)) found w)).
Proof.
  intros w. rewrite for_each_transfer. cbn [snd]. revert w.
  induction found as [|f rest IH]; intros w; [apply nothing_moved_refl|].
  cbn [fold_left]. eapply nothing_moved_trans; [apply transfer_copy_grows|apply IH].
Qed.

Lemma Path_mkdir_grows dest w :
  nothing_moved w (snd (Path_mkdir dest w)).
Proof.
  unfold Path_mkdir, emit, mbind, M_bind.
  destruct (mkdir_parents_grows (anchor dest) (rev (parts dest)) (log (EvMkdir dest) w))
    as (r & m & -> & Hm).
  eapply nothing_moved_trans; [now apply (nothing_moved_log (EvMkdir dest))|].
  now apply nothing_moved_with_fs.
Qed.


Lemma given_nonempty c : c <> "" -> given (Some c) = true.
Proof.
  intros Hc. cbn. apply negb_true_iff. now apply String.eqb_neq.
Qed.


(** The loop at work: the first capture is refused by the system, the
    second is still copied, the third is skipped because its name is taken. *)
Example batch_goes_on :
  let r := app "desk" (Some "shots") None desk in
  fst r = 0 /\
  console (snd r) =
    [ MsgScanning (Pathlib.of_str "desk");
      MsgTable [ ("screenshot_3.png", "b", ByName);
                 ("screenshot_2.png", "a", ByName);
                 ("screenshot_1.png", "a", ByName) ];
      MsgAction (Some Copy) (Pathlib.of_str "shots");
      MsgFailed "screenshot_3.png" (OSError PermissionError);
      MsgSkipExists "screenshot_1.png";
      MsgDone ] /\
  lookup_node (snd r) (Pathlib.of_str "shots/screenshot_3.png") = None /\
  lookup_node (snd r) (Pathlib.of_str "shots/screenshot_2.png") = Some (plain_image 200 200) /\
  lookup_node (snd r) (Pathlib.of_str "shots/screenshot_1.png") = Some (plain_image 7 7).
Proof. vm_compute. repeat split; reflexivity. Qed.




(** C10, as stated: with both options present the files are copied and none
    is moved.  An empty [--copy-to] value counts as absent, and the files are
    moved. *)
Lemma empty_copy_to_moves :
  let src := Pathlib.of_str "tests/img_random_name_001.png" in
  let dst := Pathlib.of_str "moved/img_random_name_001.png" in
  let r := app "tests" (Some "") (Some "moved") tests_dir in
  fst r = 0 /\
  In (EvTransfer Move src dst) (trace (snd r)) /\
  lookup_node tests_dir src = Some (plain_image 472 1024) /\
  lookup_node (snd r) src = None /\
  lookup_node (snd r) dst = Some (plain_image 472 1024).
Proof. vm_compute. repeat split; try reflexivity. right. right. right. right. right. right. now left. Qed.

(** C10, amended.  When [--copy-to] has a value that is not empty, the
    action is a copy into that directory and [--move-to] plays no part: the
    run is the one without it, no move is attempted, and every entry of the
    file system is still where it was, unchanged. *)
Theorem copy_takes_precedence folder c move_to w :
  c <> "" ->
  destination (Some c) move_to = (Some (Pathlib.of_str c), Some Copy) /\
  main folder (Some c) move_to w = main folder (Some c) None w /\
  nothing_moved w (snd (main folder (Some c) move_to w)).
Proof.
  intros Hc. pose proof (given_nonempty c Hc) as Hgiven.
  assert (Hdest : forall m, destination (Some c) m = (Some (Pathlib.of_str c), Some Copy)).
  { intros m. unfold destination. now rewrite Hgiven. }
  split; [apply Hdest|].
  assert (Hact : forall m found, act (Some c) m found = act (Some c) None found).
  { intros m found. unfold act. now rewrite !Hdest. }
  split.
  - unfold main, mbind, M_bind.
    destruct (Path_exists (Pathlib.of_str folder) w) as [[present|e] w0]; [|reflexivity].
    destruct (negb present); [reflexivity|].
    destruct (scan (Pathlib.of_str folder) w0) as [[[|f rest]|e] w1]; try reflexivity.
    destruct (console_print _ w1) as [[[]|e] w2]; [|reflexivity].
    now rewrite Hact.
  - unfold main, Path_exists, get_world, mbind, M_bind. cbn [mret M_ret].
    destruct (bool_decide (is_Some (lookup_node w (Pathlib.of_str folder))));
      cbn [negb]; [|apply nothing_moved_say].
    destruct (scan_effect (Pathlib.of_str folder) w) as (found & probes & -> & Hprobes).
    assert (Hscan : nothing_moved w
              (say (MsgScanning (Pathlib.of_str folder)) (add_events probes w))).
    { apply (nothing_moved_trans _ (add_events probes w));
        [now apply nothing_moved_add_events|apply nothing_moved_say]. }
    destruct found as [|f rest].
    { eapply nothing_moved_trans; [exact Hscan|apply nothing_moved_say]. }
    eapply nothing_moved_trans; [exact Hscan|].
    unfold console_print at 1.
    eapply nothing_moved_trans; [apply nothing_moved_say|].
    unfold act. rewrite Hdest. unfold mbind, M_bind.
    match goal with
    | |- context [Path_mkdir ?d ?v] =>
        pose proof (Path_mkdir_grows d v) as Hmk; destruct (Path_mkdir d v) as [[[]|e] v1]
    end; cbn [snd] in *; [|exact Hmk].
    eapply nothing_moved_trans; [exact Hmk|].
    unfold console_print at 1.
    eapply nothing_moved_trans; [apply nothing_moved_say|].
    match goal with
    | |- context [for_each ?b ?l ?v] =>
        pose proof (for_each_copy_grows (Pathlib.of_str c) l v) as Hloop;
        destruct (for_each b l v) as [[[]|e] v2]
    end; cbn [snd] in *; [|exact Hloop].
    eapply nothing_moved_trans; [exact Hloop|apply nothing_moved_say].
Qed.

Lemma copy_takes_precedence_witness :
  destination (Some "shots") (Some "moved") = (Some (Pathlib.of_str "shots"), Some Copy) /\
  main "desk" (Some "shots") (Some "moved") desk = main "desk" (Some "shots") None desk /\
  nothing_moved desk (snd (main "desk" (Some "shots") (Some "moved") desk)).
Proof.
  apply (copy_takes_precedence "desk" "shots" (Some "moved") desk).
  discriminate.
Defined.

(** * Further properties of the classifier *)

Lemma inspect_unopened p w :
  (forall img, lookup_node w p <> Some (File (Ok img))) ->
  is_screenshot p w = (Ok false, log (EvOpen p) w) \/ ~ image_extension p \/ name_match p = true.
Proof.
  intros Hn. destruct (decide (image_extension p)) as [Hext|Hext]; [|now right; left].
  destruct (name_match p) eqn:Hname; [now right; right|left].
  rewrite (is_screenshot_inspects _ _ Hext Hname).
  destruct (inspect_open_fails p w Hn) as [e ->]. reflexivity.
Qed.

Lemma is_screenshot_local p w1 w2 :
  lookup_node w1 p = lookup_node w2 p ->
  fst (is_screenshot p w1) = fst (is_screenshot p w2).
Proof.
  intros Hsame.
  destruct (decide (image_extension p)) as [Hext|Hext];
    [|now rewrite !extension_gate_aux by exact Hext].
  destruct (name_match p) eqn:Hname.
  - unfold is_screenshot. rewrite bool_decide_eq_true_2 by exact Hext.
    unfold name_match in Hname. cbn [negb]. now rewrite Hname.
  - destruct (lookup_node w1 p) as [[|[img|e]]|] eqn:Hn1.
    2: { symmetry in Hsame.
         rewrite !(is_screenshot_inspects _ _ Hext Hname).
         rewrite (inspect_opened _ _ _ Hn1), (inspect_opened _ _ _ Hsame).
         destruct (img_getexif img) as [exif|e]; [|reflexivity].
         destruct (truthy exif && has_photo_tag exif); [reflexivity|].
         destruct ((fst (img_size img) =? 0) || (snd (img_size img) =? 0)); [reflexivity|].
         cbv zeta. now destruct (in_ranges _). }
    all: destruct (inspect_unopened p w1) as [->|[?|?]]; try congruence;
      destruct (inspect_unopened p w2) as [->|[?|?]]; try congruence; reflexivity.
Qed.

(** X1.  The verdict on a path depends on nothing but the path and what the
    file system holds at it: two worlds that agree there give the same
    verdict, whatever else differs. *)
Theorem verdict_is_local p w1 w2 :
  lookup_node w1 p = lookup_node w2 p ->
  fst (is_screenshot p w1) = fst (is_screenshot p w2).
Proof. apply is_screenshot_local. Qed.

Lemma verdict_is_local_witness :
  fst (is_screenshot (Pathlib.of_str "album/IMG_0002.PNG") album) =
  fst (is_screenshot (Pathlib.of_str "album/IMG_0002.PNG")
         (say MsgDone (log (EvRglob (Pathlib.of_str "album")) album))).
Proof.
  apply (verdict_is_local (Pathlib.of_str "album/IMG_0002.PNG") album
           (say MsgDone (log (EvRglob (Pathlib.of_str "album")) album))).
  reflexivity.
Defined.

Lemma is_screenshot_events p w :
  exists hit new,
    is_screenshot p w = (Ok hit, add_events new w) /\
    (new = [] \/ new = [EvOpen p] \/
     exists a b, new = [EvOpen p; EvDivide a b] /\ b <> 0).
Proof.
  destruct (decide (image_extension p)) as [Hext|Hext];
    [destruct (name_match p) eqn:Hname|].
  - exists true, []. rewrite add_events_nil. split; [|now left].
    unfold is_screenshot. rewrite bool_decide_eq_true_2 by exact Hext.
    unfold name_match in Hname. cbn [negb]. now rewrite Hname.
  - rewrite (is_screenshot_inspects _ _ Hext Hname).
    destruct (lookup_node w p) as [[|[img|e]]|] eqn:Hn.
    2: { rewrite (inspect_opened _ _ _ Hn).
      destruct (img_getexif img) as [exif|e];
        [|exists false, [EvOpen p]; split; [reflexivity|now right; left]].
      destruct (truthy exif && has_photo_tag exif);
        [exists false, [EvOpen p]; split; [reflexivity|now right; left]|].
      destruct ((fst (img_size img) =? 0) || (snd (img_size img) =? 0)) eqn:Ez;
        [exists false, [EvOpen p]; split; [reflexivity|now right; left]|].
      apply orb_false_iff in Ez. destruct Ez as [Ew Eh]. apply Z.eqb_neq in Ew, Eh.
      cbv zeta. rewrite !log_add_events, add_events_app.
      destruct (in_ranges _); eexists _, _; (split; [reflexivity|]);
        right; right; eexists _, _; (split; [reflexivity|lia]). }
    all: destruct (inspect_open_fails p w) as [e' He'];
      [intros img' Himg; congruence|];
      rewrite He'; exists false, [EvOpen p]; split; [reflexivity|now right; left].
  - exists false, []. rewrite add_events_nil. split; [|now left].
    now apply extension_gate_aux.
Qed.

(** X2.  A classification is read-only: it returns a verdict and leaves the
    files, the transfer faults and the console as they were; all it attempts
    is nothing at all, one open of the path, or that open followed by one
    division with a divisor other than zero. *)
Theorem classification_reads_only p w :
  exists hit new,
    is_screenshot p w = (Ok hit, add_events new w) /\
    (new = [] \/ new = [EvOpen p] \/
     exists a b, new = [EvOpen p; EvDivide a b] /\ b <> 0).
Proof. apply is_screenshot_events. Qed.

(** X3.  A positive verdict always has its evidence: the path has an image
    extension, and either its name holds a keyword, or the file opened as an
    image whose EXIF read returned without a photo tag, whose sides are both
    different from zero and whose rounded ratio of the longer to the shorter
    side lies in a range of the table. *)
Theorem positive_verdict_evidence p w :
  fst (is_screenshot p w) = Ok true ->
  image_extension p /\
  (name_match p = true \/
   exists img exif,
     lookup_node w p = Some (File (Ok img)) /\
     img_getexif img = Ok exif /\
     truthy exif && has_photo_tag exif = false /\
     fst (img_size img) <> 0 /\ snd (img_size img) <> 0 /\
     in_ranges (Float.div (Float.of_int (Z.max (fst (img_size img)) (snd (img_size img))))
                          (Float.of_int (Z.min (fst (img_size img)) (snd (img_size img)))))
       = true).
Proof.
  intros Htrue.
  destruct (decide (image_extension p)) as [Hext|Hext];
    [|rewrite extension_gate_aux in Htrue by exact Hext; discriminate Htrue].
  split; [exact Hext|].
  destruct (name_match p) eqn:Hname; [now left|right].
  destruct (lookup_node w p) as [[|[img|e]]|] eqn:Hn.
  2: { rewrite (is_screenshot_inspects _ _ Hext Hname), (inspect_opened _ _ _ Hn) in Htrue.
    exists img. destruct (img_getexif img) as [exif|e]; [|discriminate Htrue].
    exists exif. split; [reflexivity|]. split; [reflexivity|].
    destruct (truthy exif && has_photo_tag exif); [discriminate Htrue|].
    split; [reflexivity|].
    destruct ((fst (img_size img) =? 0) || (snd (img_size img) =? 0)) eqn:Ez;
      [discriminate Htrue|].
    apply orb_false_iff in Ez. destruct Ez as [Ew Eh]. apply Z.eqb_neq in Ew, Eh.
    split; [exact Ew|]. split; [exact Eh|].
    cbv zeta in Htrue. destruct (in_ranges _); [reflexivity|discriminate Htrue]. }
  all: destruct (inspect_unopened p w) as [Hf|[?|?]]; try congruence;
    rewrite Hf in Htrue; discriminate Htrue.
Qed.

Lemma positive_verdict_evidence_witness :
  image_extension (Pathlib.of_str "album/IMG_0002.PNG") /\
  (name_match (Pathlib.of_str "album/IMG_0002.PNG") = true \/
   exists img exif,
     lookup_node album (Pathlib.of_str "album/IMG_0002.PNG") = Some (File (Ok img)) /\
     img_getexif img = Ok exif /\
     truthy exif && has_photo_tag exif = false /\
     fst (img_size img) <> 0 /\ snd (img_size img) <> 0 /\
     in_ranges (Float.div (Float.of_int (Z.max (fst (img_size img)) (snd (img_size img))))
                          (Float.of_int (Z.min (fst (img_size img)) (snd (img_size img)))))
       = true).
Proof.
  apply (positive_verdict_evidence (Pathlib.of_str "album/IMG_0002.PNG") album).
  vm_compute. reflexivity.
Defined.

(** The float test of the table, over the integers. *)
Lemma in_ranges_integers a b :
  0 < b <= a -> a < 2 ^ 32 ->
  in_ranges (Float.div (Float.of_int a) (Float.of_int b)) = true <->
  (130 * b <= 100 * a /\ 100 * a <= 136 * b) \/
  (175 * b <= 100 * a /\ 100 * a <= 180 * b) \/
  (195 * b <= 100 * a /\ 100 * a <= 240 * b).
Proof.
  intros Hab Ha. unfold in_ranges, SCREENSHOT_RATIO_RANGES.
  cbn [existsb fst snd]. rewrite !orb_true_iff, !andb_true_iff.
  rewrite lower_1_30, upper_1_36, lower_1_75, upper_1_80, lower_1_95, upper_2_40
    by assumption.
  intuition discriminate.
Qed.

Lemma in_ranges_scaled a b k :
  0 < b <= a -> 0 < k -> k * a < 2 ^ 32 ->
  in_ranges (Float.div (Float.of_int (k * a)) (Float.of_int (k * b))) =
  in_ranges (Float.div (Float.of_int a) (Float.of_int b)).
Proof.
  intros Hab Hk Hka. apply eq_true_iff_eq.
  assert (Ha : a < 2 ^ 32) by (change (2 ^ 32) with 4294967296 in *; nia).
  assert (Hkab : 0 < k * b <= k * a) by nia.
  rewrite (in_ranges_integers (k * a) (k * b)), (in_ranges_integers a b) by assumption.
  assert (Hlo : forall n, n * (k * b) <= 100 * (k * a) <-> n * b <= 100 * a).
  { intros n. replace (n * (k * b)) with (k * (n * b)) by ring.
    replace (100 * (k * a)) with (k * (100 * a)) by ring.
    symmetry. now apply Z.mul_le_mono_pos_l. }
  assert (Hhi : forall n, 100 * (k * a) <= n * (k * b) <-> 100 * a <= n * b).
  { intros n. replace (n * (k * b)) with (k * (n * b)) by ring.
    replace (100 * (k * a)) with (k * (100 * a)) by ring.
    symmetry. now apply Z.mul_le_mono_pos_l. }
  now rewrite !Hlo, !Hhi.
Qed.

(** X4.  Orientation does not matter: two images with the same EXIF outcome
    whose width and height are exchanged get the same verdict under the same
    name. *)
Theorem orientation_invariance p w1 w2 img1 img2 :
  lookup_node w1 p = Some (File (Ok img1)) ->
  lookup_node w2 p = Some (File (Ok img2)) ->
  img_getexif img2 = img_getexif img1 ->
  img_size img2 = (snd (img_size img1), fst (img_size img1)) ->
  fst (is_screenshot p w1) = fst (is_screenshot p w2).
Proof.
  intros Hn1 Hn2 Hexif Hsize.
  destruct (decide (image_extension p)) as [Hext|Hext];
    [|now rewrite !extension_gate_aux by exact Hext].
  destruct (name_match p) eqn:Hname.
  - unfold is_screenshot. rewrite bool_decide_eq_true_2 by exact Hext.
    unfold name_match in Hname. cbn [negb]. now rewrite Hname.
  - rewrite !(is_screenshot_inspects _ _ Hext Hname).
    rewrite (inspect_opened _ _ _ Hn1), (inspect_opened _ _ _ Hn2), Hexif, Hsize.
    cbn [fst snd].
    destruct (img_getexif img1) as [exif|e]; [|reflexivity].
    destruct (truthy exif && has_photo_tag exif); [reflexivity|].
    rewrite (orb_comm (snd (img_size img1) =? 0)).
    destruct ((fst (img_size img1) =? 0) || (snd (img_size img1) =? 0)); [reflexivity|].
    cbv zeta.
    rewrite (Z.max_comm (snd (img_size img1))), (Z.min_comm (snd (img_size img1))).
    now destruct (in_ranges _).
Qed.

Lemma orientation_invariance_witness :
  fst (is_screenshot (Pathlib.of_str "a.png")
         (blank [(Pathlib.of_str "a.png", plain_image 1080 1920)])) =
  fst (is_screenshot (Pathlib.of_str "a.png")
         (blank [(Pathlib.of_str "a.png", plain_image 1920 1080)])).
Proof.
  apply (orientation_invariance (Pathlib.of_str "a.png")
           (blank [(Pathlib.of_str "a.png", plain_image 1080 1920)])
           (blank [(Pathlib.of_str "a.png", plain_image 1920 1080)])
           (mkImage (Ok None) (1080, 1920)) (mkImage (Ok None) (1920, 1080)));
    vm_compute; reflexivity.
Defined.

(** X5.  Resolution does not matter: for sides below 2^32, an image and the
    image with both sides multiplied by the same positive factor, with the
    same EXIF outcome, get the same verdict under the same name, although
    the ratio is computed in floating point. *)
Theorem scale_invariance p w1 w2 img1 img2 k :
  lookup_node w1 p = Some (File (Ok img1)) ->
  lookup_node w2 p = Some (File (Ok img2)) ->
  img_getexif img2 = img_getexif img1 ->
  img_size img2 = (k * fst (img_size img1), k * snd (img_size img1)) ->
  0 < k ->
  0 <= fst (img_size img1) -> 0 <= snd (img_size img1) ->
  k * fst (img_size img1) < 2 ^ 32 -> k * snd (img_size img1) < 2 ^ 32 ->
  fst (is_screenshot p w1) = fst (is_screenshot p w2).
Proof.
  intros Hn1 Hn2 Hexif Hsize Hk Hw Hh Hkw Hkh.
  destruct (decide (image_extension p)) as [Hext|Hext];
    [|now rewrite !extension_gate_aux by exact Hext].
  destruct (name_match p) eqn:Hname.
  - unfold is_screenshot. rewrite bool_decide_eq_true_2 by exact Hext.
    unfold name_match in Hname. cbn [negb]. now rewrite Hname.
  - rewrite !(is_screenshot_inspects _ _ Hext Hname).
    rewrite (inspect_opened _ _ _ Hn1), (inspect_opened _ _ _ Hn2), Hexif, Hsize.
    cbn [fst snd].
    destruct (img_getexif img1) as [exif|e]; [|reflexivity].
    destruct (truthy exif && has_photo_tag exif); [reflexivity|].
    set (wd := fst (img_size img1)) in *. set (ht := snd (img_size img1)) in *.
    assert (Hzero : (k * wd =? 0) || (k * ht =? 0) = (wd =? 0) || (ht =? 0)).
    { f_equal; apply eq_true_iff_eq; rewrite !Z.eqb_eq; nia. }
    rewrite Hzero.
    destruct ((wd =? 0) || (ht =? 0)) eqn:Ez; [reflexivity|].
    apply orb_false_iff in Ez. destruct Ez as [Ew Eh]. apply Z.eqb_neq in Ew, Eh.
    cbv zeta.
    rewrite Z.mul_max_distr_nonneg_l, Z.mul_min_distr_nonneg_l by lia.
    rewrite in_ranges_scaled; [now destruct (in_ranges _)|lia|lia|].
    rewrite <- Z.mul_max_distr_nonneg_l by lia. lia.
Qed.

Lemma scale_invariance_witness :
  fst (is_screenshot (Pathlib.of_str "a.png")
         (blank [(Pathlib.of_str "a.png", plain_image 9 16)])) =
  fst (is_screenshot (Pathlib.of_str "a.png")
         (blank [(Pathlib.of_str "a.png", plain_image 1080 1920)])).
Proof.
  apply (scale_invariance (Pathlib.of_str "a.png")
           (blank [(Pathlib.of_str "a.png", plain_image 9 16)])
           (blank [(Pathlib.of_str "a.png", plain_image 1080 1920)])
           (mkImage (Ok None) (9, 16)) (mkImage (Ok None) (1080, 1920)) 120);
    vm_compute; first [reflexivity | discriminate].
Defined.

(** * Further properties of the driver *)
















(** One turn of the transfer loop leaves every entry other than the file it
    handles as it was. *)
Lemma transfer_keeps dest action_type f w q n :
  fs w !! q = Some n -> q <> f ->
  fs (snd (transfer dest action_type f w)) !! q = Some n.
Proof.
  intros Hq Hne. unfold transfer. rewrite try_except_total.
  unfold Path_exists, get_world, mbind, M_bind. cbn [mret M_ret].
  set (target := Pathlib.joinpath dest (Pathlib.name f)).
  destruct (lookup_node w target) as [t|] eqn:Ht.
  - rewrite bool_decide_eq_true_2 by eauto. exact Hq.
  - rewrite bool_decide_eq_false_2 by (intros [t Hn]; discriminate Hn).
    assert (Hfree : fs w !! target = None) by now apply lookup_node_None.
    assert (Hqt : target <> q) by congruence.
    destruct action_type as [[|]|].
    + unfold shutil_copy2, emit, get_world, set_fs, mbind, M_bind.
      destruct (transfer_fault _ !! f) as [e|]; [exact Hq|].
      destruct (lookup_node _ f) as [[|c]|]; try exact Hq.
      cbn. now rewrite lookup_insert_ne.
    + unfold shutil_move, emit, get_world, set_fs, mbind, M_bind.
      destruct (transfer_fault _ !! f) as [e|]; [exact Hq|].
      destruct (lookup_node _ f) as [m|]; try exact Hq.
      cbn. now rewrite lookup_insert_ne, lookup_delete_ne by congruence.
    + unfold shutil_move, emit, get_world, set_fs, mbind, M_bind.
      destruct (transfer_fault _ !! f) as [e|]; [exact Hq|].
      destruct (lookup_node _ f) as [m|]; try exact Hq.
      cbn. now rewrite lookup_insert_ne, lookup_delete_ne by congruence.
Qed.

(** X10.  The transfer loop, copying or moving, never overwrites, changes or
    removes an entry that is not one of the matched files: every such entry
    is still there, unchanged, when the loop ends. *)
Theorem transfers_keep_other_entries dest action_type found w q n :
  fs w !! q = Some n ->
  q ∉ found ->
  fs (snd (for_each (transfer dest action_type) found w)) !! q = Some n.
Proof.
  rewrite for_each_transfer. cbn [snd]. revert w.
  induction found as [|f rest IH]; intros w Hq Hnot; [exact Hq|].
  cbn [fold_left]. apply not_elem_of_cons in Hnot. destruct Hnot as [Hne Hrest].
  apply IH; [|exact Hrest]. now apply transfer_keeps.
Qed.

Lemma transfers_keep_other_entries_witness :
  fs (snd (for_each (transfer (Pathlib.of_str "shots") (Some Move))
             [Pathlib.of_str "desk/a/screenshot_1.png"] desk))
    !! Pathlib.of_str "shots/screenshot_1.png" = Some (plain_image 7 7).
Proof.
  apply (transfers_keep_other_entries (Pathlib.of_str "shots") (Some Move)
           [Pathlib.of_str "desk/a/screenshot_1.png"] desk
           (Pathlib.of_str "shots/screenshot_1.png") (plain_image 7 7)).
  - vm_compute. reflexivity.
  - compute_done.
Defined.

(** X11.  Two matched files with the same base name collide in the flat
    destination: once the first has been transferred, the turn of the second
    finds the name taken and skips it, so the second file is neither copied
    nor moved. *)
Theorem same_name_is_skipped dest action_type f1 f2 w c :
  Pathlib.name f2 = Pathlib.name f1 ->
  lookup_node w (Pathlib.joinpath dest (Pathlib.name f1)) = None ->
  lookup_node w f1 = Some (File c) ->
  transfer_fault w !! f1 = None ->
  let w1 := snd (transfer dest action_type f1 w) in
  lookup_node w1 (Pathlib.joinpath dest (Pathlib.name f1)) = Some (File c) /\
  transfer dest action_type f2 w1 = (Ok tt, say (MsgSkipExists (Pathlib.name f2)) w1).
Proof.
  intros Hname Hfree Hf1 Hfault w1.
  set (target := Pathlib.joinpath dest (Pathlib.name f1)) in *.
  assert (Htaken : lookup_node w1 target = Some (File c)).
  { unfold w1, transfer. rewrite try_except_total.
    unfold Path_exists, get_world, mbind, M_bind. cbn [mret M_ret].
    fold target. rewrite Hfree.
    rewrite bool_decide_eq_false_2 by (intros [t Hn]; discriminate Hn).
    assert (Hparts : parts target <> []).
    { intros Hnil. unfold lookup_node in Hfree. now rewrite Hnil in Hfree. }
    destruct action_type as [[|]|];
      unfold shutil_copy2, shutil_move, emit, get_world, set_fs, mbind, M_bind;
      replace (transfer_fault (log _ w)) with (transfer_fault w) by reflexivity;
      rewrite Hfault;
      replace (lookup_node (log _ w) f1) with (lookup_node w f1) by reflexivity;
      rewrite Hf1; cbn [snd]; rewrite lookup_node_with_fs;
      (destruct (parts target); [congruence|]); apply lookup_insert_eq. }
  split; [exact Htaken|].
  unfold transfer. rewrite try_except_total.
  unfold Path_exists, get_world, mbind, M_bind. cbn [mret M_ret].
  rewrite Hname. fold target. rewrite Htaken.
  now rewrite bool_decide_eq_true_2 by eauto.
Qed.

Lemma same_name_is_skipped_witness :
  let w := blank [ (Pathlib.of_str "in/a/shot.png", plain_image 9 16);
                   (Pathlib.of_str "in/b/shot.png", plain_image 3 4) ] in
  let w1 := snd (transfer (Pathlib.of_str "out") (Some Move) (Pathlib.of_str "in/a/shot.png") w) in
  lookup_node w1 (Pathlib.joinpath (Pathlib.of_str "out")
                    (Pathlib.name (Pathlib.of_str "in/a/shot.png")))
    = Some (plain_image 9 16) /\
  transfer (Pathlib.of_str "out") (Some Move) (Pathlib.of_str "in/b/shot.png") w1 =
    (Ok tt, say (MsgSkipExists (Pathlib.name (Pathlib.of_str "in/b/shot.png"))) w1).
Proof.
  intros w.
  apply (same_name_is_skipped (Pathlib.of_str "out") (Some Move)
           (Pathlib.of_str "in/a/shot.png") (Pathlib.of_str "in/b/shot.png") w
           (Ok (mkImage (Ok None) (9, 16)))); vm_compute; reflexivity.
Defined.







(** X13.  Letter case in the file name never matters, and neither does the
    folder: two paths whose names and extensions agree after lower-casing,
    and which hold the same file, get the same verdict. *)
Theorem verdict_ignores_case p q w1 w2 :
  Str.lower (Pathlib.name p) = Str.lower (Pathlib.name q) ->
  Str.lower (Pathlib.suffix p) = Str.lower (Pathlib.suffix q) ->
  lookup_node w1 p = lookup_node w2 q ->
  fst (is_screenshot p w1) = fst (is_screenshot q w2).
Proof.
  intros Hn Hs Hsame.
  assert (Hext : image_extension p <-> image_extension q)
    by (unfold image_extension; now rewrite Hs).
  assert (Hname : name_match p = name_match q)
    by (unfold name_match; now rewrite Hn).
  destruct (decide (image_extension q)) as [Hq|Hq].
  2: { rewrite !extension_gate_aux; [reflexivity|exact Hq|tauto]. }
  assert (Hp : image_extension p) by tauto.
  destruct (name_match q) eqn:Hmq.
  - unfold is_screenshot. rewrite !bool_decide_eq_true_2 by assumption.
    unfold name_match in Hname, Hmq. cbn [negb]. now rewrite Hname, Hmq.
  - destruct (lookup_node w2 q) as [[|[img|e]]|] eqn:Hn2.
    2: { rewrite (is_screenshot_inspects p w1 Hp Hname), (is_screenshot_inspects q w2 Hq Hmq).
         rewrite (inspect_opened _ _ _ Hsame), (inspect_opened _ _ _ Hn2).
         destruct (img_getexif img) as [exif|e]; [|reflexivity].
         destruct (truthy exif && has_photo_tag exif); [reflexivity|].
         destruct ((fst (img_size img) =? 0) || (snd (img_size img) =? 0)); [reflexivity|].
         cbv zeta. now destruct (in_ranges _). }
    all: destruct (inspect_unopened p w1) as [->|[?|?]]; try congruence; try tauto;
      destruct (inspect_unopened q w2) as [->|[?|?]]; try congruence; try tauto;
      reflexivity.
Qed.

Lemma verdict_ignores_case_witness :
  fst (is_screenshot (Pathlib.of_str "a/SCREENSHOT_1.PNG")
         (blank [(Pathlib.of_str "a/SCREENSHOT_1.PNG", plain_image 5 5)])) =
  fst (is_screenshot (Pathlib.of_str "b/Screenshot_1.png")
         (blank [(Pathlib.of_str "b/Screenshot_1.png", plain_image 5 5)])).
Proof.
  apply (verdict_ignores_case (Pathlib.of_str "a/SCREENSHOT_1.PNG")
           (Pathlib.of_str "b/Screenshot_1.png")
           (blank [(Pathlib.of_str "a/SCREENSHOT_1.PNG", plain_image 5 5)])
           (blank [(Pathlib.of_str "b/Screenshot_1.png", plain_image 5 5)]));
    vm_compute; reflexivity.
Defined.

